(** * Attendance verification core of Lead-CRM

    A shallow embedding of the three components of the attendance
    subsystem and the properties stated about them:

    - [Geofence]        : components/attendance/geofence-validator.tsx,
                          its arithmetic read exactly, on real numbers
    - [GeofenceDoubles] : the same validator on IEEE 754 doubles, the
                          numbers of JavaScript
    - [Capture]         : components/attendance/selfie-capture.tsx
    - [Attendance]      : components/attendance/attendance-view.tsx together
                          with the [attendance] table of
                          scripts/001_create_database_schema.sql

    React state is a record that each handler maps to its successor, and
    every call that leaves the component (device APIs, storage, the
    database, callbacks) is an outcome supplied by the environment and an
    entry in an effect log.  Coordinates that are only passed along are
    kept as real numbers. *)

From Stdlib Require Import Floats.
From Stdlib Require Import Reals Lra Lia List Bool String Ascii Arith ZArith.
From Stdlib Require Import Sorted Permutation.
Import ListNotations.

(* ================================================================== *)
(** * Geofence validator, in exact arithmetic *)
(* ================================================================== *)

(** The validator with its numbers read as real numbers and [Math.sin],
    [Math.cos], [Math.sqrt] and [Math.atan2] as the functions they
    approximate.  What the component does when, and what it draws, does not
    depend on the arithmetic; the values computed are those of the formula,
    from which the doubles of [GeofenceDoubles] differ by rounding and, for
    points nearly opposite on the sphere, by being NaN. *)
Module Geofence.

Local Open Scope R_scope.

(** [userLocation : { lat; lng } | null] *)
Record LatLng : Type := mkLatLng { lat : R; lng : R }.

(** [workLocation : { lat; lng; radius }] *)
Record WorkLocation : Type := mkWork { wlat : R; wlng : R; radius : R }.

Definition center (w : WorkLocation) : LatLng := mkLatLng (wlat w) (wlng w).

(** [Math.atan2 (y, x)] on finite arguments. *)
Definition atan2 (y x : R) : R :=
  if Rlt_dec 0 x then atan (y / x)
  else if Rlt_dec x 0 then
         if Rle_dec 0 y then atan (y / x) + PI else atan (y / x) - PI
  else if Rlt_dec 0 y then PI / 2
  else if Rlt_dec y 0 then - (PI / 2)
  else 0.

(** [a <= b] on numbers, as a boolean. *)
Definition Rleb (a b : R) : bool := if Rle_dec a b then true else false.

(** [const R = 6371e3] *)
Definition R_earth : R := 6371000.

(** [calculateDistance], lines 34-45. *)
Definition calculateDistance (lat1 lng1 lat2 lng2 : R) : R :=
  let phi1 := (lat1 * PI) / 180 in
  let phi2 := (lat2 * PI) / 180 in
  let dphi := ((lat2 - lat1) * PI) / 180 in
  let dlam := ((lng2 - lng1) * PI) / 180 in
  let a := sin (dphi / 2) * sin (dphi / 2)
           + cos phi1 * cos phi2 * sin (dlam / 2) * sin (dlam / 2) in
  let c := 2 * atan2 (sqrt a) (sqrt (1 - a)) in
  R_earth * c.

(** The two [useState] cells of the component. *)
Record state : Type := mkState {
  isWithinGeofence : option bool;
  distance : option R
}.

Definition initial : state := mkState None None.

(** Body of the [useEffect], lines 18-32: the successor state and the
    arguments with which [onValidationChange] was called, in order. *)
Definition validate (userLocation : option LatLng) (w : WorkLocation)
                    (st : state) : state * list bool :=
  match userLocation with
  | Some u =>
      let calculatedDistance :=
        calculateDistance (lat u) (lng u) (wlat w) (wlng w) in
      let isValid := Rleb calculatedDistance (radius w) in
      (mkState (Some isValid) (Some calculatedDistance), [isValid])
  | None => (st, [])
  end.

(** What the component draws, lines 54-106: the waiting card, or the
    verification card with its badge, the distance (when known) and the
    allowed radius.  The two numbers are kept as numbers; their rendering
    by [formatDistance] is not modelled. *)
Inductive badge : Type := WithinWorkArea | OutsideWorkArea.

Inductive view : Type :=
| GettingLocation
| LocationVerification (status : badge) (shown : option R) (allowed : R).

(** Truthiness of a [boolean | null] cell. *)
Definition truthy (b : option bool) : bool :=
  match b with Some true => true | _ => false end.

Definition render (userLocation : option LatLng) (w : WorkLocation)
                  (st : state) : view :=
  match userLocation with
  | None => GettingLocation
  | Some _ =>
      LocationVerification
        (if truthy (isWithinGeofence st) then WithinWorkArea
         else OutsideWorkArea)
        (distance st) (radius w)
  end.

(** One update of the props: the effect runs, then the component is drawn
    with the new state. *)
Definition update (userLocation : option LatLng) (w : WorkLocation)
                  (st : state) : state * list bool * view :=
  let '(st', calls) := validate userLocation w st in
  (st', calls, render userLocation w st').

(** A history of prop updates, oldest first: each entry is the
    [userLocation] and [workLocation] with which the effect runs. *)
Definition history : Type := list (option LatLng * WorkLocation).

Fixpoint run (h : history) (st : state) : state * list bool :=
  match h with
  | [] => (st, [])
  | (u, w) :: rest =>
      let '(st1, calls1) := validate u w st in
      let '(st2, calls2) := run rest st1 in
      (st2, calls1 ++ calls2)
  end.

(** The verdict the caller holds: the argument of the latest call of
    [onValidationChange], if there was one. *)
Definition in_force (calls : list bool) : option bool :=
  match rev calls with
  | [] => None
  | b :: _ => Some b
  end.

(** ** The distance as the specification words it *)

Definition radians (deg : R) : R := deg * PI / 180.

(** Haversine great-circle distance between [A] and [B]. *)
Definition haversine (A B : LatLng) : R :=
  let phi1 := radians (lat A) in
  let phi2 := radians (lat B) in
  let dphi := phi2 - phi1 in
  let dlam := radians (lng B) - radians (lng A) in
  let a := (sin (dphi / 2))² + cos phi1 * cos phi2 * (sin (dlam / 2))² in
  let c := 2 * atan2 (sqrt a) (sqrt (1 - a)) in
  6371000 * c.

(** The verdict for a present location, and the verdicts a history of
    updates gives rise to. *)
Definition verdict (w : WorkLocation) (u : LatLng) : bool :=
  Rleb (calculateDistance (lat u) (lng u) (wlat w) (wlng w)) (radius w).

Fixpoint verdicts (h : history) : list bool :=
  match h with
  | [] => []
  | (Some u, w) :: rest => verdict w u :: verdicts rest
  | (None, _) :: rest => verdicts rest
  end.

(** [n] updates in a row with the location absent. *)
Definition absent (w : WorkLocation) (n : nat) : history :=
  repeat (None, w) n.

(** The worked scenario: user at (40.0009, -74), site at (40, -74). *)
Definition scenario_user : LatLng := mkLatLng 40.0009 (-74).
Definition scenario_site (r : R) : WorkLocation := mkWork 40 (-74) r.

End Geofence.

(* ================================================================== *)
(** * Geofence validator on doubles *)
(* ================================================================== *)

Module GeofenceDoubles.

Local Open Scope float_scope.
Local Set Warnings "-inexact-float".

(** The functions of [Math] that the validator calls.  ECMA-262 leaves
    their values to the implementation and fixes them at a few arguments:
    [Math.sqrt] of a number below zero is NaN, and [Math.atan2] with a NaN
    argument is NaN. *)
Record host : Type := mkHost {
  Math_sin : float -> float;
  Math_cos : float -> float;
  Math_sqrt : float -> float;
  Math_atan2 : float -> float -> float;
  Math_sqrt_negative :
    forall x : float,
      (x <? 0) = true -> PrimFloat.is_nan (Math_sqrt x) = true;
  Math_atan2_NaN :
    forall y x : float,
      PrimFloat.is_nan y || PrimFloat.is_nan x = true ->
      PrimFloat.is_nan (Math_atan2 y x) = true
}.

(** [Math.PI], the double nearest to pi: 3.141592653589793. *)
Definition Math_PI : float := 0x1.921fb54442d18p+1.

Record LatLng : Type := mkLatLng { lat : float; lng : float }.

Record WorkLocation : Type :=
  mkWork { wlat : float; wlng : float; radius : float }.

(** [const R = 6371e3] *)
Definition R_earth : float := 6371000.

(** [const a], lines 39-41. *)
Definition haversine_a (M : host) (lat1 lng1 lat2 lng2 : float) : float :=
  let dLat := ((lat2 - lat1) * Math_PI) / 180 in
  let dLng := ((lng2 - lng1) * Math_PI) / 180 in
  Math_sin M (dLat / 2) * Math_sin M (dLat / 2)
  + Math_cos M ((lat1 * Math_PI) / 180) * Math_cos M ((lat2 * Math_PI) / 180)
    * Math_sin M (dLng / 2) * Math_sin M (dLng / 2).

(** [calculateDistance], lines 34-45. *)
Definition calculateDistance (M : host) (lat1 lng1 lat2 lng2 : float)
  : float :=
  let a := haversine_a M lat1 lng1 lat2 lng2 in
  let c := 2 * Math_atan2 M (Math_sqrt M a) (Math_sqrt M (1 - a)) in
  R_earth * c.

(** The two [useState] cells of the component. *)
Record state : Type := mkState {
  isWithinGeofence : option bool;
  distance : option float
}.

Definition initial : state := mkState None None.

(** Body of the [useEffect], lines 18-32: the successor state and the
    arguments with which [onValidationChange] was called, in order. *)
Definition validate (M : host) (userLocation : option LatLng)
                    (w : WorkLocation) (st : state) : state * list bool :=
  match userLocation with
  | Some u =>
      let calculatedDistance :=
        calculateDistance M (lat u) (lng u) (wlat w) (wlng w) in
      let isValid := calculatedDistance <=? radius w in
      (mkState (Some isValid) (Some calculatedDistance), [isValid])
  | None => (st, [])
  end.

(** ** A run between antipodal points

    The user stands at (0.08, 0); the site is centred at (-0.08, 180), the
    point opposite on the sphere.  [answers] holds what [Math.sin] and
    [Math.cos] of V8 and of the C library return at the three arguments
    this run asks for.  [Math.sqrt] is the square root of the machine.
    [Math.atan2] is asked once, with NaN as its second argument.  No other
    value of the four functions enters the run. *)
Definition antipodal_user : LatLng := mkLatLng 0.08 0.

Definition antipodal_site (r : float) : WorkLocation :=
  mkWork (-0.08) 180 r.

Definition answers_sin (x : float) : float :=
  if x =? -0x1.6e05a695f8191p-10 then -0x1.6e059ecaa87dcp-10
  else if x =? 0x1.921fb54442d18p+0 then 1
  else PrimFloat.nan.

Definition answers_cos (x : float) : float :=
  if PrimFloat.abs x =? 0x1.6e05a695f8191p-10 then 0x1.ffffdf4abdd1ep-1
  else PrimFloat.nan.

Definition answers_sqrt (x : float) : float :=
  if x <? 0 then PrimFloat.nan else PrimFloat.sqrt x.

Definition answers_atan2 (y x : float) : float := PrimFloat.nan.

Definition answers : host :=
  mkHost answers_sin answers_cos answers_sqrt answers_atan2
         (fun x H =>
            @eq_ind_r bool true
              (fun b : bool =>
                 PrimFloat.is_nan
                   (if b then PrimFloat.nan else PrimFloat.sqrt x) = true)
              eq_refl (x <? 0) H)
         (fun _ _ _ => eq_refl).

End GeofenceDoubles.

(* ================================================================== *)
(** * Selfie and location capture *)
(* ================================================================== *)

Module Capture.

Import Geofence.
Local Open Scope string_scope.

(** A [MediaStreamTrack], by identity, and the [MediaStream] that
    [getUserMedia] hands out. *)
Definition track : Type := nat.

Record MediaStream : Type := mkStream { getTracks : list track }.

(** [action: "clock_in" | "clock_out"] *)
Inductive capture_action : Type := clock_in | clock_out.

Definition action_name (a : capture_action) : string :=
  match a with clock_in => "clock_in" | clock_out => "clock_out" end.

Record props : Type := mkProps { userId : string; action : capture_action }.

(** The [useState] cells and [streamRef] of the component, lines 19-27. *)
Record session : Type := mkSession {
  isCapturing : bool;
  capturedImage : option string;
  isProcessing : bool;
  location : option LatLng;
  error : option string;
  streamRef : option MediaStream
}.

(** The session when the component is mounted. *)
Definition closed_session : session :=
  mkSession false None false None None None.

(** Everything the component does to the world outside its own state. *)
Inductive effect : Type :=
| GetUserMedia
| StreamOpened (s : MediaStream)
| TrackStop (t : track)
| GetCurrentPosition
| PositionResolved (l : LatLng)
| ToDataURL (img : string)
| StorageUpload (filename : string) (img : string)
| OnSuccess (selfieUrl : string) (l : LatLng)
| OnClose
| ConsoleError (msg : string).

(** What the world answers at the three suspension points. *)
Inductive camera_outcome : Type :=
| CameraRejected
| CameraGranted (s : MediaStream).

Inductive geo_outcome : Type :=
| GeoUnsupported
| GeoError
| GeoPosition (latitude longitude : R).

Inductive canvas_outcome : Type :=
| NoContext
| Frame (dataUrl : string).

Inductive upload_outcome : Type :=
| FetchFailed
| StorageError
| Stored (publicUrl : string).

Definition setCapturedImage (v : option string) (s : session) : session :=
  mkSession (isCapturing s) v (isProcessing s) (location s) (error s)
            (streamRef s).

Definition setLocation (v : option LatLng) (s : session) : session :=
  mkSession (isCapturing s) (capturedImage s) (isProcessing s) v (error s)
            (streamRef s).

Definition setError (v : option string) (s : session) : session :=
  mkSession (isCapturing s) (capturedImage s) (isProcessing s) (location s) v
            (streamRef s).

Definition setIsProcessing (v : bool) (s : session) : session :=
  mkSession (isCapturing s) (capturedImage s) v (location s) (error s)
            (streamRef s).

Definition setIsCapturing (v : bool) (s : session) : session :=
  mkSession v (capturedImage s) (isProcessing s) (location s) (error s)
            (streamRef s).

Definition setStreamRef (v : option MediaStream) (s : session) : session :=
  mkSession (isCapturing s) (capturedImage s) (isProcessing s) (location s)
            (error s) v.

(** [videoRef.current]: the [<video ref={videoRef}>] element exists only
    inside [{isCapturing && (...)}], lines 212-215, so the ref is set
    exactly when the component was last drawn with [isCapturing] true. *)
Definition videoRef_current (s : session) : bool := isCapturing s.

(** [canvasRef.current]: the [<canvas>] of line 274 is drawn
    unconditionally, so the ref is set while the dialog is displayed, which
    is when the handlers below can be invoked. *)
Definition canvasRef_current (s : session) : bool := true.

(** Truthiness of a [string | null] cell: set and not the empty string. *)
Definition nonempty (v : option string) : bool :=
  match v with
  | Some EmptyString | None => false
  | Some _ => true
  end.

(** [startCamera], lines 30-50. *)
Definition startCamera (o : camera_outcome) (s : session)
  : session * list effect :=
  let s0 := setError None s in
  match o with
  | CameraGranted stream =>
      if videoRef_current s0
      then (setIsCapturing true (setStreamRef (Some stream) s0),
            [GetUserMedia; StreamOpened stream])
      else (s0, [GetUserMedia; StreamOpened stream])
  | CameraRejected =>
      (setError
         (Some "Camera access denied. Please allow camera permissions.") s0,
       [GetUserMedia; ConsoleError "Error accessing camera:"])
  end.

(** [stopCamera], lines 52-58. *)
Definition stopCamera (s : session) : session * list effect :=
  match streamRef s with
  | Some stream =>
      (setIsCapturing false (setStreamRef None s),
       map TrackStop (getTracks stream))
  | None => (setIsCapturing false s, [])
  end.

Definition capture_failed : string :=
  "Failed to capture photo or get location. Please try again.".

(** [capturePhoto] with [getCurrentLocation] inlined, lines 60-108. *)
Definition capturePhoto (g : geo_outcome) (c : canvas_outcome) (s : session)
  : session * list effect :=
  if negb (videoRef_current s) || negb (canvasRef_current s) then (s, [])
  else
    match g with
    | GeoUnsupported =>
        (setError (Some capture_failed) s,
         [ConsoleError "Error capturing photo:"])
    | GeoError =>
        (setError (Some capture_failed) s,
         [GetCurrentPosition; ConsoleError "Error capturing photo:"])
    | GeoPosition latitude longitude =>
        let currentLocation := mkLatLng latitude longitude in
        let s1 := setLocation (Some currentLocation) s in
        match c with
        | NoContext =>
            (s1, [GetCurrentPosition; PositionResolved currentLocation])
        | Frame imageDataUrl =>
            let s2 := setCapturedImage (Some imageDataUrl) s1 in
            let '(s3, stops) := stopCamera s2 in
            (s3, ([GetCurrentPosition; PositionResolved currentLocation;
                   ToDataURL imageDataUrl] ++ stops)%list)
        end
    end.

(** [timestamp.replace(/[:.]/g, "-")] *)
Fixpoint dashes (s : string) : string :=
  match s with
  | EmptyString => EmptyString
  | String c rest =>
      String (if (Ascii.eqb c ":" || Ascii.eqb c ".")%bool then "-"%char
              else c)
             (dashes rest)
  end.

(** The storage key built in [uploadSelfie], lines 116-117. *)
Definition filename (p : props) (iso : string) : string :=
  "selfies/" ++ userId p ++ "/" ++ action_name (action p) ++ "_"
  ++ dashes iso ++ ".jpg".

Definition processing_failed : string :=
  "Failed to process selfie. Please try again.".

(** [confirmCapture] with [uploadSelfie] inlined, lines 110-158; [iso] is
    the clock reading taken for the file name. *)
Definition confirmCapture (p : props) (iso : string) (o : upload_outcome)
                          (s : session) : session * list effect :=
  match capturedImage s, location s with
  | Some img, Some loc =>
      if nonempty (Some img) then
        match o with
        | FetchFailed =>
            (setIsProcessing false (setError (Some processing_failed) s),
             [ConsoleError "Error processing selfie:"])
        | StorageError =>
            (setIsProcessing false (setError (Some processing_failed) s),
             [StorageUpload (filename p iso) img;
              ConsoleError "Error processing selfie:"])
        | Stored selfieUrl =>
            (setIsProcessing false
               (setLocation None (setCapturedImage None s)),
             [StorageUpload (filename p iso) img; OnSuccess selfieUrl loc;
              OnClose])
        end
      else (s, [])
  | _, _ => (s, [])
  end.

(** [retakePhoto], lines 160-164. *)
Definition retakePhoto (o : camera_outcome) (s : session)
  : session * list effect :=
  startCamera o (setLocation None (setCapturedImage None s)).

(** [handleClose], lines 166-172. *)
Definition handleClose (s : session) : session * list effect :=
  let '(s1, stops) := stopCamera s in
  (setError None (setLocation None (setCapturedImage None s1)),
   (stops ++ [OnClose])%list).

(** The handlers the buttons and the dialog can invoke, each with the
    answers of the world it meets. *)
Inductive event : Type :=
| StartCamera (o : camera_outcome)
| CapturePhoto (g : geo_outcome) (c : canvas_outcome)
| ConfirmCapture (iso : string) (o : upload_outcome)
| RetakePhoto (o : camera_outcome)
| HandleClose.

Definition step (p : props) (e : event) (s : session)
  : session * list effect :=
  match e with
  | StartCamera o => startCamera o s
  | CapturePhoto g c => capturePhoto g c s
  | ConfirmCapture iso o => confirmCapture p iso o s
  | RetakePhoto o => retakePhoto o s
  | HandleClose => handleClose s
  end.

Fixpoint run_events (p : props) (es : list event) (s : session)
  : session * list effect :=
  match es with
  | [] => (s, [])
  | e :: rest =>
      let '(s1, log1) := step p e s in
      let '(s2, log2) := run_events p rest s1 in
      (s2, (log1 ++ log2)%list)
  end.

(** The card with the "Start Camera" button is drawn, line 191. *)
Definition idle (s : session) : bool :=
  negb (isCapturing s) && negb (nonempty (capturedImage s)).

(** How often [track.stop ()] was invoked on [t]. *)
Fixpoint stops_of (t : track) (log : list effect) : nat :=
  match log with
  | [] => 0
  | TrackStop t' :: rest =>
      (if Nat.eqb t t' then 1 else 0) + stops_of t rest
  | _ :: rest => stops_of t rest
  end.

(** The tracks of every stream the device handed out. *)
Fixpoint opened_tracks (log : list effect) : list track :=
  match log with
  | [] => []
  | StreamOpened s :: rest => (getTracks s ++ opened_tracks rest)%list
  | _ :: rest => opened_tracks rest
  end.

(** Was a frame rasterized? *)
Definition is_frame (e : effect) : bool :=
  match e with ToDataURL _ => true | _ => false end.

(** Did the location request fail (unsupported, denied, timed out)? *)
Definition location_unavailable (g : geo_outcome) : bool :=
  match g with GeoPosition _ _ => false | _ => true end.

(** Did the upload fail? *)
Definition upload_failed (o : upload_outcome) : bool :=
  match o with Stored _ => false | _ => true end.

(** The events after which a captured image is gone: retake, cancel, and
    a confirmation whose upload succeeds. *)
Definition consumes (e : event) : bool :=
  match e with
  | RetakePhoto _ | HandleClose | ConfirmCapture _ (Stored _) => true
  | _ => false
  end.

(** An image is held only together with a coordinate. *)
Definition paired (s : session) : Prop :=
  capturedImage s <> None -> location s <> None.

(** The preview is off and no stream is held. *)
Definition never_previewing (s : session) : Prop :=
  isCapturing s = false /\ streamRef s = None.

(** The characters that [dashes] replaces. *)
Definition separator (c : ascii) : bool :=
  (Ascii.eqb c ":" || Ascii.eqb c ".")%bool.

(** Was something sent to storage, or handed to [onSuccess]? *)
Definition is_upload (e : effect) : bool :=
  match e with StorageUpload _ _ => true | _ => false end.

Definition is_success (e : effect) : bool :=
  match e with OnSuccess _ _ => true | _ => false end.

(** A log in which no frame is rasterized, nothing is uploaded and nothing
    is handed to [onSuccess]. *)
Definition quiet (log : list effect) : bool :=
  forallb (fun e => negb (is_frame e || is_upload e || is_success e)) log.

End Capture.

(* ================================================================== *)
(** * Attendance recorder *)
(* ================================================================== *)

Module Attendance.

Import Geofence.
Local Open Scope string_scope.

(** [CREATE TYPE attendance_status AS ENUM (...)] *)
Inductive attendance_status : Type :=
| present | absent | late | early_departure.

(** A value of a [POINT] column. *)
Record point : Type := mkPoint { px : R; py : R }.

(** A row of [public.attendance], lines 38-55 of the schema.  The client's
    [AttendanceRecord] interface, lines 21-31, reads the columns [id] to
    [notes] of it. *)
Record AttendanceRecord : Type := mkRecord {
  id : string;
  user_id : string;
  date : string;
  clock_in : option string;
  clock_out : option string;
  break_start : option string;
  break_end : option string;
  status : attendance_status;
  selfie_url : option string;
  clock_in_location : option point;
  clock_out_location : option point;
  notes : option string;
  approved_by : option string;
  created_at : option string;
  updated_at : option string
}.

Definition table : Type := list AttendanceRecord.

(** The two uniqueness constraints of the table: [id UUID PRIMARY KEY] and
    [UNIQUE(user_id, date)]. *)
Definition key (r : AttendanceRecord) : string * string :=
  (user_id r, date r).

Definition well_formed (t : table) : Prop :=
  NoDup (map id t) /\ NoDup (map key t).

Definition has_id (i : string) (r : AttendanceRecord) : bool := id r =? i.

Definition has_key (u d : string) (r : AttendanceRecord) : bool :=
  (user_id r =? u) && (date r =? d).

(** What a request to the store answers: [{ data, error }].  The errors
    are PostgreSQL's 22P02 (a text is not a literal of the column's type)
    and 23505, and PostgREST's answer to [.single ()] when no row comes
    back. *)
Inductive pg_error : Type :=
| invalid_text_representation
| unique_violation (constraint : string)
| no_single_row.

Inductive response (A : Type) : Type :=
| Data (a : A)
| Error (e : pg_error).
Arguments Data {A} a.
Arguments Error {A} e.

(** What the recorder takes from outside the repository: how JavaScript
    writes a number inside a template literal, and which point PostgreSQL
    reads from a text that begins like a point literal. *)
Record platform : Type := mkPlatform {
  Number_toString : R -> string;
  point_literal : string -> option point
}.

(** ** Text sent for a [POINT] column

    The input function of the type [point] skips blanks, accepts one
    opening parenthesis and then reads a number; a text whose first
    character after the blanks can begin neither is refused with
    "invalid input syntax for type point". *)
Definition isspace (c : ascii) : bool :=
  let n := nat_of_ascii c in
  (n =? 32)%nat || ((9 <=? n)%nat && (n <=? 13)%nat).

Fixpoint skip_blanks (s : string) : string :=
  match s with
  | EmptyString => EmptyString
  | String c rest => if isspace c then skip_blanks rest else s
  end.

(** A digit, a sign, a decimal point, or the first letter of [inf],
    [infinity] or [nan] in either case. *)
Definition begins_number (c : ascii) : bool :=
  let n := nat_of_ascii c in
  ((48 <=? n)%nat && (n <=? 57)%nat)
  || existsb (Ascii.eqb c) ["+"; "-"; "."; "i"; "I"; "n"; "N"]%char.

Definition begins_point (s : string) : bool :=
  match skip_blanks s with
  | EmptyString => false
  | String c _ => Ascii.eqb c "(" || begins_number c
  end.

Definition point_in (P : platform) (text : string) : response point :=
  if begins_point text then
    match point_literal P text with
    | Some p => Data p
    | None => Error invalid_text_representation
    end
  else Error invalid_text_representation.

(** ** Clock-in *)

(** The object sent by the clock-in request, lines 89-96; the location
    travels as text. *)
Record clock_in_request : Type := mkRequest {
  q_user_id : string;
  q_date : string;
  q_clock_in : string;
  q_status : attendance_status;
  q_selfie_url : string;
  q_clock_in_location : string
}.

(** The same columns once the store has read each value into the type of
    its column. *)
Record clock_in_values : Type := mkValues {
  v_user_id : string;
  v_date : string;
  v_clock_in : string;
  v_status : attendance_status;
  v_selfie_url : string;
  v_clock_in_location : point
}.

Definition typed (q : clock_in_request) (p : point) : clock_in_values :=
  mkValues (q_user_id q) (q_date q) (q_clock_in q) (q_status q)
           (q_selfie_url q) p.

(** The row an [INSERT] of those columns proposes: the primary key takes
    its default [uuid_generate_v4 ()], here [fresh]; [created_at] and
    [updated_at] take theirs, [NOW ()], here [store_now]; the remaining
    columns are [NULL]. *)
Definition proposed (fresh store_now : string) (v : clock_in_values)
  : AttendanceRecord :=
  mkRecord fresh (v_user_id v) (v_date v) (Some (v_clock_in v)) None
           None None (v_status v) (Some (v_selfie_url v))
           (Some (v_clock_in_location v)) None None None
           (Some store_now) (Some store_now).

(** [DO UPDATE SET c = EXCLUDED.c] for each column [c] that was sent, then
    the trigger [update_attendance_updated_at], line 232 of the schema. *)
Definition merged (store_now : string) (v : clock_in_values)
                  (old : AttendanceRecord) : AttendanceRecord :=
  mkRecord (id old) (v_user_id v) (v_date v) (Some (v_clock_in v))
           (clock_out old) (break_start old) (break_end old) (v_status v)
           (Some (v_selfie_url v)) (Some (v_clock_in_location v))
           (clock_out_location old) (notes old) (approved_by old)
           (created_at old) (Some store_now).

(** The [onConflict] option of [upsert]: the unique columns that decide
    whether a row is a duplicate. *)
Inductive conflict_columns : Type := on_user_id_date.

(** [INSERT ... ON CONFLICT (target) DO UPDATE SET ... RETURNING *] on
    values of the columns' types.  When [onConflict] is not given the
    target is the primary key.  A clash on a unique constraint other than
    the target is an error. *)
Definition insert_on_conflict (onConflict : option conflict_columns)
    (fresh store_now : string) (v : clock_in_values) (t : table)
  : response (table * AttendanceRecord) :=
  match onConflict with
  | None =>
      match find (has_id fresh) t with
      | Some old =>
          if existsb (fun r => negb (has_id fresh r)
                               && has_key (v_user_id v) (v_date v) r) t
          then Error (unique_violation "attendance_user_id_date_key")
          else Data (map (fun r => if has_id fresh r
                                   then merged store_now v r else r) t,
                     merged store_now v old)
      | None =>
          if existsb (has_key (v_user_id v) (v_date v)) t
          then Error (unique_violation "attendance_user_id_date_key")
          else Data ((t ++ [proposed fresh store_now v])%list,
                     proposed fresh store_now v)
      end
  | Some on_user_id_date =>
      match find (has_key (v_user_id v) (v_date v)) t with
      | Some old =>
          Data (map (fun r => if has_key (v_user_id v) (v_date v) r
                              then merged store_now v r else r) t,
                merged store_now v old)
      | None =>
          if existsb (has_id fresh) t
          then Error (unique_violation "attendance_pkey")
          else Data ((t ++ [proposed fresh store_now v])%list,
                     proposed fresh store_now v)
      end
  end.

(** [.upsert (values, { onConflict }).select ().single ()]: the store reads
    the text sent for [clock_in_location] into a point before any row is
    looked at. *)
Definition upsert (P : platform) (onConflict : option conflict_columns)
    (fresh store_now : string) (q : clock_in_request) (t : table)
  : response (table * AttendanceRecord) :=
  match point_in P (q_clock_in_location q) with
  | Error e => Error e
  | Data p => insert_on_conflict onConflict fresh store_now (typed q p) t
  end.

(** ** Clock-out *)

(** The two columns written by the clock-out request, lines 107-110, and
    [updated_at], written by the trigger of line 232. *)
Definition with_clock_out (store_now now : string) (p : point)
                          (r : AttendanceRecord) : AttendanceRecord :=
  mkRecord (id r) (user_id r) (date r) (clock_in r) (Some now)
           (break_start r) (break_end r) (status r) (selfie_url r)
           (clock_in_location r) (Some p) (notes r) (approved_by r)
           (created_at r) (Some store_now).

(** [UPDATE ... SET clock_out, clock_out_location WHERE id = i
    RETURNING *] on values of the columns' types. *)
Definition set_clock_out (i store_now now : string) (p : point) (t : table)
  : response (table * AttendanceRecord) :=
  match find (has_id i) t with
  | Some old =>
      Data (map (fun r => if has_id i r
                          then with_clock_out store_now now p r else r) t,
            with_clock_out store_now now p old)
  | None => Error no_single_row
  end.

(** [.update ({ clock_out, clock_out_location }).eq ("id", i).select ()
    .single ()]: the text sent for [clock_out_location] is read into a
    point first. *)
Definition update_clock_out (P : platform) (i store_now now : string)
                            (location_text : string) (t : table)
  : response (table * AttendanceRecord) :=
  match point_in P location_text with
  | Error e => Error e
  | Data p => set_clock_out i store_now now p t
  end.

(** ** Reading *)

(** [.order ("date", { ascending: false })] *)
Fixpoint insert_desc (r : AttendanceRecord) (l : list AttendanceRecord)
  : list AttendanceRecord :=
  match l with
  | [] => [r]
  | x :: rest =>
      if String.leb (date x) (date r) then r :: l
      else x :: insert_desc r rest
  end.

Definition order_date_desc (l : list AttendanceRecord)
  : list AttendanceRecord :=
  fold_right insert_desc [] l.

(** [iso.split ("T")[0]] *)
Fixpoint date_of (iso : string) : string :=
  match iso with
  | EmptyString => EmptyString
  | String c rest =>
      if Ascii.eqb c "T" then EmptyString else String c (date_of rest)
  end.

(** Whether the query of [loadAttendanceData] comes back with rows or with
    [{ data: null, error }]. *)
Inductive read_outcome : Type := ReadAnswered | ReadFailed.

(** The state of [AttendanceView] that the recorder reads and writes. *)
Record view : Type := mkView {
  attendanceRecords : list AttendanceRecord;
  todayRecord : option AttendanceRecord;
  loading : bool;
  showSelfieCapture : bool;
  captureAction : Capture.capture_action
}.

(** The persisted table together with one mounted view of it. *)
Record world : Type := mkWorld { attendance : table; ui : view }.

Definition mounted : view := mkView [] None true false Capture.clock_in.

Definition setTodayRecord (v : option AttendanceRecord) (u : view) : view :=
  mkView (attendanceRecords u) v (loading u) (showSelfieCapture u)
         (captureAction u).

(** [loadAttendanceData], lines 48-68; [t] is the clock reading.  The
    [error] of the answer is not looked at: without rows the view shows
    [records || []] and no today's record. *)
Definition loadAttendanceData (profile_id : string) (t : string)
                              (answer : read_outcome) (w : world) : world :=
  let records :=
    match answer with
    | ReadAnswered =>
        firstn 30
          (order_date_desc
             (filter (fun r => user_id r =? profile_id) (attendance w)))
    | ReadFailed => []
    end in
  let today := date_of t in
  let todayRec := find (fun r => date r =? today) records in
  mkWorld (attendance w)
          (mkView records todayRec false (showSelfieCapture (ui w))
                  (captureAction (ui w))).

(** [handleClockIn] and [handleClockOut], lines 70-78. *)
Definition handleClockIn (w : world) : world :=
  mkWorld (attendance w)
          (mkView (attendanceRecords (ui w)) (todayRecord (ui w))
                  (loading (ui w)) true Capture.clock_in).

Definition handleClockOut (w : world) : world :=
  mkWorld (attendance w)
          (mkView (attendanceRecords (ui w)) (todayRecord (ui w))
                  (loading (ui w)) true Capture.clock_out).

(** [`POINT(${location.lng} ${location.lat})`] *)
Definition locationPoint (P : platform) (location : LatLng) : string :=
  "POINT(" ++ Number_toString P (lng location) ++ " "
           ++ Number_toString P (lat location) ++ ")".

(** What the surroundings supply during one [handleSelfieSuccess]: the
    readings of the client's clock for [today], for [now] and inside the
    reload, the store's [NOW ()] while it serves the write, and whether the
    reload is answered. *)
Record readings : Type := mkReadings {
  at_today : string;
  at_now : string;
  at_store : string;
  at_load : string;
  load_answer : read_outcome
}.

(** [handleSelfieSuccess], lines 80-123: the successor world and what was
    written with [console.error]. *)
Definition handleSelfieSuccess (P : platform) (profile_id selfieUrl : string)
    (location : LatLng) (t : readings) (fresh : string) (w : world)
  : world * list string :=
  let today := date_of (at_today t) in
  let now := at_now t in
  let text := locationPoint P location in
  match captureAction (ui w) with
  | Capture.clock_in =>
      match upsert P None fresh (at_store t)
                   (mkRequest profile_id today now present selfieUrl text)
                   (attendance w) with
      | Error _ => (w, ["Error updating attendance:"])
      | Data (t', data) =>
          (loadAttendanceData profile_id (at_load t) (load_answer t)
             (mkWorld t' (setTodayRecord (Some data) (ui w))), [])
      end
  | Capture.clock_out =>
      match todayRecord (ui w) with
      | None => (w, [])
      | Some rec =>
          match update_clock_out P (id rec) (at_store t) now text
                                 (attendance w) with
          | Error _ => (w, ["Error updating attendance:"])
          | Data (t', data) =>
              (loadAttendanceData profile_id (at_load t) (load_answer t)
                 (mkWorld t' (setTodayRecord (Some data) (ui w))), [])
          end
      end
  end.

(** The two operations of the recorder as the user performs them: press
    the button, then deliver the captured selfie and coordinate. *)
Definition clockIn (P : platform) (profile_id selfieUrl : string)
    (location : LatLng) (t : readings) (fresh : string) (w : world)
  : world * list string :=
  handleSelfieSuccess P profile_id selfieUrl location t fresh
                      (handleClockIn w).

Definition clockOut (P : platform) (profile_id selfieUrl : string)
    (location : LatLng) (t : readings) (fresh : string) (w : world)
  : world * list string :=
  handleSelfieSuccess P profile_id selfieUrl location t fresh
                      (handleClockOut w).

(** The records of one employee for one day. *)
Definition records_of (u d : string) (t : table) : list AttendanceRecord :=
  filter (has_key u d) t.

(** ** A worked day

    Employee [u1] opens the page on the morning of 15 January 2024 with an
    empty table; [morning] and [evening] are later moments of that day. *)
Definition here : LatLng := mkLatLng 40 (-74).

Definition morning : readings :=
  mkReadings "2024-01-15T09:00:00.000Z" "2024-01-15T09:00:00.001Z"
             "2024-01-15T09:00:00.100Z" "2024-01-15T09:00:00.500Z"
             ReadAnswered.

Definition evening : readings :=
  mkReadings "2024-01-15T17:00:00.000Z" "2024-01-15T17:00:00.001Z"
             "2024-01-15T17:00:00.100Z" "2024-01-15T17:00:00.500Z"
             ReadAnswered.

Definition page_opened : world :=
  loadAttendanceData "u1" "2024-01-15T08:59:00.000Z" ReadAnswered
                     (mkWorld [] mounted).

(** A record of that morning's clock-in as the table would hold it. *)
Definition first_record : AttendanceRecord :=
  mkRecord "id-1" "u1" "2024-01-15" (Some "2024-01-15T09:00:00.001Z") None
           None None present (Some "https://x/img.jpg")
           (Some (mkPoint (-74) 40)) None None None
           (Some "2024-01-15T09:00:00.100Z")
           (Some "2024-01-15T09:00:00.100Z").

(** A table that holds that record, seen through a view that was opened
    before the record was entered and has not been reloaded since: it
    still offers "Clock In". *)
Definition second_tab : world := mkWorld [first_record] (ui page_opened).

(** [a] comes no later than [b] in a list ordered by date, newest first. *)
Definition newer_or_same (a b : AttendanceRecord) : Prop :=
  String.leb (date b) (date a) = true.

(** The control drawn beside today's attendance, lines 212-228. *)
Inductive control : Type := OfferClockIn | OfferClockOut | DayComplete.

Definition offered (v : view) : control :=
  match todayRecord v with
  | None => OfferClockIn
  | Some r =>
      if Capture.nonempty (clock_out r) then DayComplete else OfferClockOut
  end.

(** What one view can do to the world, in sequence. *)
Inductive operation : Type :=
| DoClockIn (selfieUrl : string) (location : LatLng) (t : readings)
            (fresh : string)
| DoClockOut (selfieUrl : string) (location : LatLng) (t : readings)
             (fresh : string)
| DoReload (t : string) (answer : read_outcome).

Definition perform (P : platform) (profile_id : string) (o : operation)
                   (w : world) : world :=
  match o with
  | DoClockIn url loc t fresh =>
      fst (clockIn P profile_id url loc t fresh w)
  | DoClockOut url loc t fresh =>
      fst (clockOut P profile_id url loc t fresh w)
  | DoReload t answer => loadAttendanceData profile_id t answer w
  end.

Definition perform_all (P : platform) (profile_id : string)
                       (os : list operation) (w : world) : world :=
  fold_left (fun w o => perform P profile_id o w) os w.

(** The most lenient platform, to run the examples on: every number is
    written as 0 and every text that begins like a point literal is read as
    the origin. *)
Definition lenient_platform : platform :=
  mkPlatform (fun _ => "0") (fun _ => Some (mkPoint 0 0)).

End Attendance.

Module GeofenceFacts.
Import Geofence.
Local Open Scope R_scope.

Lemma Rleb_true_iff (a b : R) : Rleb a b = true <-> a <= b.
Proof.
  unfold Rleb. destruct (Rle_dec a b) as [H | H]; split; intro K;
    try reflexivity; try assumption; try discriminate; contradiction.
Qed.

Lemma Rleb_false_iff (a b : R) : Rleb a b = false <-> b < a.
Proof.
  unfold Rleb. destruct (Rle_dec a b) as [H | H]; split; intro K;
    try reflexivity; try discriminate; lra.
Qed.

(** The code computes the haversine distance of the specification. *)
Lemma calculateDistance_haversine (A B : LatLng) :
  calculateDistance (lat A) (lng A) (lat B) (lng B) = haversine A B.
Proof.
  unfold calculateDistance, haversine, radians, R_earth, Rsqr.
  replace (lat B * PI / 180 - lat A * PI / 180)
    with ((lat B - lat A) * PI / 180) by field.
  replace (lng B * PI / 180 - lng A * PI / 180)
    with ((lng B - lng A) * PI / 180) by field.
  do 2 f_equal.
  f_equal; f_equal; [ | f_equal ]; ring.
Qed.




(** ** Numeric facts used by the worked scenario *)

Lemma PI_above : 3.1415 < PI.
Proof.
  destruct (PI_2_3_7_ineq 2) as [lo _].
  unfold PI_2_3_7_tg, tg_alt, Ratan_seq in lo; simpl in lo.
  lra.
Qed.

Lemma PI_below : PI < 3.1417.
Proof.
  destruct (PI_2_3_7_ineq 2) as [_ hi].
  unfold PI_2_3_7_tg, tg_alt, Ratan_seq in hi; simpl in hi.
  lra.
Qed.

(** [atan2] undoes [sin]/[cos] on the right half-plane. *)
Lemma atan2_sin_cos (y : R) :
  - (PI / 2) < y < PI / 2 -> atan2 (sin y) (cos y) = y.
Proof.
  intros By. unfold atan2.
  assert (0 < cos y) as Hc by (apply cos_gt_0; lra).
  destruct (Rlt_dec 0 (cos y)) as [_ | N]; [ | contradiction ].
  now apply atan_tan.
Qed.

(** Along a meridian the formula collapses to the arc between the two
    latitudes. *)
Lemma haversine_meridian (A B : LatLng) :
  lng A = lng B ->
  Rabs (radians (lat B) - radians (lat A)) < PI ->
  haversine A B = 6371000 * Rabs (radians (lat B) - radians (lat A)).
Proof.
  intros Hl Hd. unfold haversine. rewrite Hl.
  set (d := radians (lat B) - radians (lat A)) in *.
  replace (radians (lng B) - radians (lng B)) with 0 by ring.
  replace (0 / 2) with 0 by field.
  rewrite sin_0, Rsqr_0, Rmult_0_r, Rplus_0_r.
  assert (- (PI / 2) < d / 2 < PI / 2) as By
    by (apply Rabs_def2 in Hd; lra).
  assert (0 < cos (d / 2)) as Hc by (apply cos_gt_0; lra).
  replace (1 - (sin (d / 2))²) with ((cos (d / 2))²)
    by (rewrite cos2; ring).
  rewrite (sqrt_Rsqr (cos (d / 2))) by lra.
  rewrite sqrt_Rsqr_abs.
  f_equal.
  destruct (Rle_dec 0 d) as [Pos | Neg].
  - rewrite (Rabs_right d) by lra.
    rewrite Rabs_right.
    + rewrite atan2_sin_cos by exact By. field.
    + apply Rle_ge. destruct (Req_dec d 0) as [Z | NZ].
      * rewrite Z. replace (0 / 2) with 0 by field. rewrite sin_0. lra.
      * left. apply sin_gt_0; lra.
  - rewrite (Rabs_left d) by lra.
    rewrite Rabs_left by (apply sin_lt_0_var; lra).
    rewrite <- sin_neg, <- (cos_neg (d / 2)).
    rewrite atan2_sin_cos by lra. field.
Qed.

Lemma scenario_distance :
  calculateDistance 40.0009 (-74) 40 (-74) = 31.855 * PI.
Proof.
  change (calculateDistance (lat scenario_user) (lng scenario_user)
            (lat (center (scenario_site 0))) (lng (center (scenario_site 0)))
          = 31.855 * PI).
  rewrite calculateDistance_haversine.
  assert (radians (lat (center (scenario_site 0)))
          - radians (lat scenario_user) = - (0.0009 * PI / 180)) as E
    by (unfold radians, center, scenario_site, scenario_user, lat, wlat;
        lra).
  pose proof PI_above. pose proof PI_below.
  rewrite haversine_meridian.
  - rewrite E, Rabs_left by lra. lra.
  - reflexivity.
  - rewrite E, Rabs_left by lra. lra.
Qed.

(** Read in exact arithmetic, the verdict for a present location is true
    exactly when the haversine distance, with Earth radius 6,371,000 m,
    from the user to the site centre is at most the site radius. *)
Lemma exact_verdict_iff_haversine
    (u : LatLng) (w : WorkLocation) (st : state) :
  exists b : bool,
    validate (Some u) w st
      = (mkState (Some b) (Some (haversine u (center w))), [b])
    /\ (b = true <-> haversine u (center w) <= radius w)
    /\ (haversine u (center w) = radius w -> b = true).
Proof.
  exists (Rleb (haversine u (center w)) (radius w)).
  split; [ | split ].
  - unfold validate.
    change (wlat w) with (lat (center w)).
    change (wlng w) with (lng (center w)).
    now rewrite calculateDistance_haversine.
  - apply Rleb_true_iff.
  - intros E. apply Rleb_true_iff. rewrite E. apply Rle_refl.
Qed.

(** Read in exact arithmetic, the points (0.08, 0) and (-0.08, 180) lie
    half the circumference apart, [PI * 6371000] metres, which is within a
    radius of 30,000 km. *)
Lemma exact_antipodal_verdict :
  calculateDistance 0.08 0 (-0.08) 180 = PI * 6371000
  /\ validate (Some (mkLatLng 0.08 0)) (mkWork (-0.08) 180 30000000) initial
     = (mkState (Some true) (Some (PI * 6371000)), [true]).
Proof.
  assert (calculateDistance 0.08 0 (-0.08) 180 = PI * 6371000) as E.
  { unfold calculateDistance, R_earth.
    replace ((-0.08 - 0.08) * PI / 180 / 2) with (- (0.08 * PI / 180))
      by lra.
    replace ((180 - 0) * PI / 180 / 2) with (PI / 2) by lra.
    replace (-0.08 * PI / 180) with (- (0.08 * PI / 180)) by lra.
    rewrite sin_neg, cos_neg, sin_PI2.
    pose proof (sin2_cos2 (0.08 * PI / 180)) as S. unfold Rsqr in S.
    replace (- sin (0.08 * PI / 180) * - sin (0.08 * PI / 180)
             + cos (0.08 * PI / 180) * cos (0.08 * PI / 180) * 1 * 1)
      with 1 by lra.
    replace (1 - 1) with 0 by ring. rewrite sqrt_1, sqrt_0.
    unfold atan2.
    destruct (Rlt_dec 0 0) as [K | _]; [ lra | ].
    destruct (Rlt_dec 0 1) as [_ | K]; [ | lra ].
    lra. }
  split; [ exact E | ].
  unfold validate; simpl. rewrite E.
  pose proof PI_below.
  replace (Rleb (PI * 6371000) 30000000) with true
    by (symmetry; apply Rleb_true_iff; lra).
  reflexivity.
Qed.

(** C2, as it stands, fails: at radius 100 the validator does not report
    the user at (40.0009, -74) as within the fence around (40, -74). *)
Lemma scenario_radius_100_not_within :
  isWithinGeofence
    (fst (validate (Some (mkLatLng 40.0009 (-74))) (mkWork 40 (-74) 100)
            initial))
  <> Some true.
Proof.
  simpl. rewrite scenario_distance.
  pose proof PI_above.
  replace (Rleb (31.855 * PI) 100) with false
    by (symmetry; apply Rleb_false_iff; lra).
  discriminate.
Qed.

(** C2, amended. In the scenario the distance is 31.855 * PI metres, which
    lies strictly between 100.07 and 100.08; the verdict is false at radius
    99 and at radius 100, and true at radius 101. *)
Theorem scenario_verdicts :
  100.07 < calculateDistance 40.0009 (-74) 40 (-74) < 100.08
  /\ validate (Some (mkLatLng 40.0009 (-74))) (mkWork 40 (-74) 100) initial
     = (mkState (Some false) (Some (31.855 * PI)), [false])
  /\ validate (Some (mkLatLng 40.0009 (-74))) (mkWork 40 (-74) 99) initial
     = (mkState (Some false) (Some (31.855 * PI)), [false])
  /\ validate (Some (mkLatLng 40.0009 (-74))) (mkWork 40 (-74) 101) initial
     = (mkState (Some true) (Some (31.855 * PI)), [true]).
Proof.
  pose proof PI_above. pose proof PI_below.
  split; [ rewrite scenario_distance; lra | ].
  unfold validate; simpl. rewrite scenario_distance.
  replace (Rleb (31.855 * PI) 100) with false
    by (symmetry; apply Rleb_false_iff; lra).
  replace (Rleb (31.855 * PI) 99) with false
    by (symmetry; apply Rleb_false_iff; lra).
  replace (Rleb (31.855 * PI) 101) with true
    by (symmetry; apply Rleb_true_iff; lra).
  repeat split.
Qed.

(** ** Histories of updates *)

Lemma run_app (h1 h2 : history) (st : state) :
  run (h1 ++ h2) st
  = (fst (run h2 (fst (run h1 st))),
     snd (run h1 st) ++ snd (run h2 (fst (run h1 st)))).
Proof.
  revert st. induction h1 as [ | [u w] h1 IH ]; intros st; simpl.
  - now destruct (run h2 st).
  - destruct (validate u w st) as [st1 calls1].
    rewrite IH.
    destruct (run h1 st1) as [st2 calls2]; simpl.
    now rewrite app_assoc.
Qed.

Lemma run_calls (h : history) (st : state) :
  snd (run h st) = verdicts h.
Proof.
  revert st. induction h as [ | [[u | ] w] rest IH ]; intros st; simpl.
  - reflexivity.
  - specialize (IH (mkState (Some (verdict w u))
                      (Some (calculateDistance (lat u) (lng u)
                               (wlat w) (wlng w))))).
    unfold verdict in *.
    destruct (run rest _) as [st2 calls2]. simpl in *. now rewrite IH.
  - specialize (IH st). destruct (run rest st) as [st2 calls2].
    simpl in *. exact IH.
Qed.

Lemma run_absent (w : WorkLocation) (n : nat) (st : state) :
  run (absent w n) st = (st, []).
Proof.
  unfold absent. induction n as [ | n IH ]; simpl; [ reflexivity | ].
  now rewrite IH.
Qed.

Lemma in_force_last (calls : list bool) (b : bool) :
  in_force (calls ++ [b]) = Some b.
Proof. unfold in_force. now rewrite rev_app_distr. Qed.

(** C6. Whenever the user location is absent the validator reports
    "unknown": it draws the "Getting your location..." card, which carries
    neither badge, hands no verdict to the callback and leaves its state
    untouched; a validator that has only ever seen an absent location holds
    no verdict at all. *)
Theorem absent_location_is_unknown (w : WorkLocation) (st : state) (n : nat) :
  update None w st = (st, [], GettingLocation)
  /\ (forall status shown allowed,
        render None w st <> LocationVerification status shown allowed)
  /\ run (absent w n) initial = (initial, [])
  /\ isWithinGeofence initial = None.
Proof.
  repeat apply conj; try reflexivity.
  - intros status shown allowed. discriminate.
  - apply run_absent.
Qed.

(** C10. The callback is invoked exactly once for each update with a
    present location, in order, and never for an update with an absent one.
    An update to an absent location after a verdict was reported changes
    neither the calls made nor the state, so the last verdict delivered
    stays in force and the stored verdict is not reset to unknown. *)
Theorem callback_only_when_location_present
    (h : history) (w : WorkLocation) (st : state) :
  snd (run h st) = verdicts h
  /\ run (h ++ [(None, w)]) st = run h st
  /\ (forall (u : LatLng) (n : nat),
        let later := h ++ (Some u, w) :: absent w n in
        in_force (snd (run later st)) = Some (verdict w u)
        /\ isWithinGeofence (fst (run later st)) = Some (verdict w u)).
Proof.
  split; [ apply run_calls | split ].
  - rewrite run_app. simpl. rewrite app_nil_r.
    now destruct (run h st).
  - intros u n later. unfold later. rewrite run_app. simpl.
    rewrite run_absent. simpl. split.
    + apply in_force_last.
    + reflexivity.
Qed.

End GeofenceFacts.

Module DoublesFacts.
Import GeofenceDoubles.
Local Open Scope float_scope.

(** ** Comparisons of doubles *)

Lemma SFcompare_refl (s : spec_float) :
  s <> S754_nan -> SFcompare s s = Some Eq.
Proof.
  destruct s as [ b | b | | b m e ]; simpl; intros H.
  - reflexivity.
  - now destruct b.
  - congruence.
  - destruct b; rewrite Z.compare_refl;
      change (Pos.compare_cont Eq m m) with (Pos.compare m m);
      now rewrite Pos.compare_refl.
Qed.

Lemma is_nan_spec (x : float) :
  PrimFloat.is_nan x = true <-> Prim2SF x = S754_nan.
Proof.
  unfold PrimFloat.is_nan. rewrite FloatAxioms.eqb_spec. unfold SFeqb.
  split.
  - intros H. destruct (Prim2SF x) eqn:E; try reflexivity;
      rewrite SFcompare_refl in H by discriminate; discriminate.
  - intros E. now rewrite E.
Qed.

(** [x === y] implies [x <= y]. *)
Lemma eqb_leb (x y : float) : (x =? y) = true -> (x <=? y) = true.
Proof.
  rewrite FloatAxioms.eqb_spec, FloatAxioms.leb_spec. unfold SFeqb, SFleb.
  now destruct (SFcompare (Prim2SF x) (Prim2SF y)) as [[ | | ] | ].
Qed.

(** [x <= y] is [x < y || x === y]. *)
Lemma leb_ltb_eqb (x y : float) : (x <=? y) = (x <? y) || (x =? y).
Proof.
  rewrite FloatAxioms.eqb_spec, FloatAxioms.leb_spec, FloatAxioms.ltb_spec.
  unfold SFeqb, SFleb, SFltb.
  now destruct (SFcompare (Prim2SF x) (Prim2SF y)) as [[ | | ] | ].
Qed.

(** NaN is not [<=] anything, and a product with NaN is NaN. *)
Lemma leb_NaN (x y : float) : PrimFloat.is_nan x = true -> (x <=? y) = false.
Proof.
  intros H. apply is_nan_spec in H.
  rewrite FloatAxioms.leb_spec, H. reflexivity.
Qed.

Lemma mul_NaN (x y : float) :
  PrimFloat.is_nan y = true -> PrimFloat.is_nan (x * y) = true.
Proof.
  intros H. apply is_nan_spec in H. apply is_nan_spec.
  rewrite FloatAxioms.mul_spec, H. unfold SF64mul, SFmul.
  now destruct (Prim2SF x).
Qed.

(** C1.  On doubles the verdict, stored in the state and handed to the
    callback, is the comparison [distance <= radius] of the distance the
    validator computed, 6371000 * 2 * atan2 (sqrt a, sqrt (1 - a)); it is
    true when the two are equal.  That distance is not always the haversine
    distance: whenever rounding leaves the term [a] above 1, so that
    [1 - a] is below zero, the distance is NaN and the verdict is false
    whatever the radius, also for a radius that no distance on the sphere
    exceeds. *)
Theorem within_fence_on_doubles
    (M : host) (u : LatLng) (w : WorkLocation) (st : state) :
  let a := haversine_a M (lat u) (lng u) (wlat w) (wlng w) in
  let d := calculateDistance M (lat u) (lng u) (wlat w) (wlng w) in
  validate M (Some u) w st
  = (mkState (Some (d <=? radius w)) (Some d), [d <=? radius w])
  /\ d = R_earth * (2 * Math_atan2 M (Math_sqrt M a) (Math_sqrt M (1 - a)))
  /\ (d <=? radius w) = (d <? radius w) || (d =? radius w)
  /\ ((d =? radius w) = true -> (d <=? radius w) = true)
  /\ ((1 - a <? 0) = true ->
      PrimFloat.is_nan d = true /\ (d <=? radius w) = false).
Proof.
  intros a d. repeat apply conj; try reflexivity.
  - apply leb_ltb_eqb.
  - apply eqb_leb.
  - intros H.
    assert (PrimFloat.is_nan d = true) as K.
    { unfold d, calculateDistance. fold a.
      apply mul_NaN, mul_NaN, Math_atan2_NaN.
      rewrite (Math_sqrt_negative M _ H). apply orb_true_r. }
    split; [ exact K | now apply leb_NaN ].
Qed.

Lemma within_fence_on_doubles_witness :
  haversine_a answers (lat antipodal_user) (lng antipodal_user)
              (wlat (antipodal_site 3e7)) (wlng (antipodal_site 3e7))
  = 0x1.0000000000001p+0
  /\ (1 - haversine_a answers (lat antipodal_user) (lng antipodal_user)
                      (wlat (antipodal_site 3e7)) (wlng (antipodal_site 3e7))
       <? 0) = true
  /\ snd (validate answers (Some antipodal_user) (antipodal_site 3e7)
            initial) = [false]
  /\ snd (validate answers (Some antipodal_user)
            (antipodal_site PrimFloat.infinity) initial) = [false].
Proof.
  assert ((1 - haversine_a answers (lat antipodal_user) (lng antipodal_user)
                   (wlat (antipodal_site 3e7)) (wlng (antipodal_site 3e7))
           <? 0) = true) as H by (vm_compute; reflexivity).
  split; [ vm_compute; reflexivity | ].
  split; [ exact H | ].
  split.
  - exact (f_equal (fun b : bool => [b])
             (proj2 (proj2 (proj2 (proj2 (proj2
                (within_fence_on_doubles answers antipodal_user
                   (antipodal_site 3e7) initial)))) H))).
  - exact (f_equal (fun b : bool => [b])
             (proj2 (proj2 (proj2 (proj2 (proj2
                (within_fence_on_doubles answers antipodal_user
                   (antipodal_site PrimFloat.infinity) initial)))) H))).
Defined.

End DoublesFacts.

Module CaptureFacts.
Import Geofence Capture.
Local Open Scope string_scope.

(** ** Releasing the camera *)

Lemma stops_of_app (t : track) (l1 l2 : list effect) :
  stops_of t (l1 ++ l2) = stops_of t l1 + stops_of t l2.
Proof.
  induction l1 as [ | e l1 IH ]; simpl; [ reflexivity | ].
  destruct e; simpl; rewrite IH; try reflexivity. apply Nat.add_assoc.
Qed.

Lemma stops_of_tracks (t : track) (ts : list track) :
  stops_of t (map TrackStop ts) = count_occ Nat.eq_dec ts t.
Proof.
  induction ts as [ | t' ts IH ]; simpl; [ reflexivity | ].
  rewrite IH. destruct (Nat.eq_dec t' t) as [E | N].
  - subst. now rewrite Nat.eqb_refl.
  - destruct (Nat.eqb_spec t t') as [E | _]; [ congruence | reflexivity ].
Qed.

(** [handleClose] from any state whatsoever: the session is idle with
    every cell cleared, each track of the stream held in [streamRef] was
    stopped as often as it occurs there, and closing again stops
    nothing. *)
Lemma handleClose_releases (s : session) :
  let s' := fst (handleClose s) in
  idle s' = true
  /\ s' = mkSession false None (isProcessing s) None None None
  /\ (forall t,
        stops_of t (snd (handleClose s))
        = match streamRef s with
          | Some stream => count_occ Nat.eq_dec (getTracks stream) t
          | None => 0
          end)
  /\ snd (handleClose s') = [OnClose].
Proof.
  destruct s as [cap img proc loc err [stream | ]];
    unfold handleClose, stopCamera; simpl; repeat split.
  intros t. rewrite stops_of_app, stops_of_tracks. simpl. lia.
Qed.

(** No sequence of events from the session as mounted ever enters the
    preview or holds a stream, because [startCamera] keeps the stream only
    when the [<video>] element is already mounted. *)
Lemma step_never_previewing (p : props) (e : event) (s : session) :
  never_previewing s ->
  never_previewing (fst (step p e s))
  /\ (forall t, stops_of t (snd (step p e s)) = 0).
Proof.
  intros [Hc Hs]. unfold never_previewing.
  destruct s as [cap img proc loc err str]; simpl in Hc, Hs; subst.
  destruct e as [ [ | stream ] | g c | iso o | [ | stream ] | ]; simpl.
  - repeat split.
  - repeat split.
  - repeat split.
  - unfold confirmCapture; simpl.
    destruct img as [ [ | ch rest ] | ], loc as [l | ], o; simpl;
      repeat split.
  - repeat split.
  - repeat split.
  - repeat split.
Qed.

Lemma run_never_previewing (p : props) (es : list event) (s : session) :
  never_previewing s ->
  never_previewing (fst (run_events p es s))
  /\ (forall t, stops_of t (snd (run_events p es s)) = 0).
Proof.
  revert s. induction es as [ | e es IH ]; intros s Hs; simpl.
  - split; [ exact Hs | reflexivity ].
  - destruct (step_never_previewing p e s Hs) as [H1 H2].
    destruct (step p e s) as [s1 log1]; simpl in *.
    destruct (IH s1 H1) as [H3 H4].
    destruct (run_events p es s1) as [s2 log2]; simpl in *.
    split; [ exact H3 | ].
    intros t. now rewrite stops_of_app, H2, H4.
Qed.

(** C9, evaluated where it fails.  The dialog is opened, "Start Camera" is
    pressed and the device hands out a stream; the dialog is then closed.
    The session is idle again, but the stream that was opened is not held
    in [streamRef], so closing stops none of its tracks; nor does anything
    that happens afterwards. *)
Theorem cancel_misses_opened_stream
    (p : props) (stream : MediaStream) (afterwards : list event) :
  run_events p [StartCamera (CameraGranted stream); HandleClose]
             closed_session
  = (closed_session, [GetUserMedia; StreamOpened stream; OnClose])
  /\ opened_tracks [GetUserMedia; StreamOpened stream; OnClose]
     = getTracks stream
  /\ (forall t,
        stops_of t
          (snd (run_events p
                  (StartCamera (CameraGranted stream) :: HandleClose
                   :: afterwards) closed_session)) = 0).
Proof.
  split; [ reflexivity | split ].
  - simpl. apply app_nil_r.
  - apply run_never_previewing. split; reflexivity.
Qed.

(** ** Capturing *)

Ltac no_frame_in H :=
  repeat match type of H with
         | _ = (?pre ++ _ :: _)%list =>
             destruct pre; simpl in H; try discriminate H;
             injection H as ? H
         end.

Lemma nothing_to_confirm (p : props) (iso : string) (o : upload_outcome)
                         (s : session) :
  capturedImage s = None -> confirmCapture p iso o s = (s, []).
Proof. intros H. unfold confirmCapture. now rewrite H. Qed.

(** C4. In [capturePhoto] the location is resolved before the frame is
    rasterized.  Either a frame is rasterized, and then the image and the
    coordinate resolved in the same call are stored together; or no frame
    is rasterized, the stored image is left as it was, and, if none was
    held, there is nothing to confirm.  When the location is unavailable
    (unsupported, denied or timed out) the second case applies and nothing
    but the error message changes: the session stays in its pre-capture
    state. *)
Theorem capture_resolves_location_first
    (g : geo_outcome) (c : canvas_outcome) (s : session) :
  let s' := fst (capturePhoto g c s) in
  let log := snd (capturePhoto g c s) in
  (forall pre img post,
     log = (pre ++ ToDataURL img :: post)%list ->
     exists l, In (PositionResolved l) pre)
  /\ ((existsb is_frame log = false
       /\ capturedImage s' = capturedImage s
       /\ (capturedImage s = None ->
           forall p iso o, confirmCapture p iso o s' = (s', [])))
      \/ (exists latitude longitude img,
            g = GeoPosition latitude longitude /\ c = Frame img
            /\ existsb is_frame log = true
            /\ capturedImage s' = Some img
            /\ location s' = Some (mkLatLng latitude longitude)))
  /\ (location_unavailable g = true ->
      existsb is_frame log = false
      /\ (s' = s \/ s' = setError (Some capture_failed) s)).
Proof.
  unfold capturePhoto.
  destruct (negb (videoRef_current s) || negb (canvasRef_current s))%bool
    eqn:Guard; simpl.
  { repeat apply conj.
    - intros pre img post H. destruct pre; discriminate.
    - left. repeat apply conj; try reflexivity.
      intros Himg p iso o. now apply nothing_to_confirm.
    - intros _. split; [ reflexivity | now left ]. }
  destruct g as [ | | latitude longitude ]; simpl.
  - repeat apply conj.
    + intros pre img post H. no_frame_in H.
    + left. repeat apply conj; try reflexivity.
      intros Himg p iso o. now apply nothing_to_confirm.
    + intros _. split; [ reflexivity | now right ].
  - repeat apply conj.
    + intros pre img post H. no_frame_in H.
    + left. repeat apply conj; try reflexivity.
      intros Himg p iso o. now apply nothing_to_confirm.
    + intros _. split; [ reflexivity | now right ].
  - destruct c as [ | imageDataUrl ]; simpl.
    + repeat apply conj.
      * intros pre img post H. no_frame_in H.
      * left. repeat apply conj; try reflexivity.
        intros Himg p iso o. now apply nothing_to_confirm.
      * discriminate.
    + unfold stopCamera; simpl.
      destruct (streamRef s) as [stream | ]; simpl; repeat apply conj;
        try discriminate;
        try (right; now exists latitude, longitude, imageDataUrl).
      * intros pre img post H.
        destruct pre as [ | e1 [ | e2 pre ] ]; simpl in H;
          try discriminate H.
        injection H as _ H2 _. subst e2.
        exists (mkLatLng latitude longitude). simpl. auto.
      * intros pre img post H.
        destruct pre as [ | e1 [ | e2 pre ] ]; simpl in H;
          try discriminate H.
        injection H as _ H2 _. subst e2.
        exists (mkLatLng latitude longitude). simpl. auto.
Qed.

(** No handler ever leaves an image without its coordinate. *)
Lemma step_keeps_pair (p : props) (e : event) (s : session) :
  paired s -> paired (fst (step p e s)).
Proof.
  unfold paired.
  destruct s as [cap img proc loc err str]; simpl. intros H.
  destruct e as [ [ | stream ] | g c | iso o | [ | stream ] | ]; simpl.
  - exact H.
  - destruct cap; exact H.
  - unfold capturePhoto; simpl. destruct cap; simpl; [ | exact H ].
    destruct g as [ | | la lo ]; simpl; try exact H.
    destruct c as [ | i ]; simpl; [ discriminate | ].
    destruct str; simpl; discriminate.
  - unfold confirmCapture; simpl.
    destruct img as [ [ | ch rest ] | ], loc as [l | ]; simpl; try exact H.
    destruct o; simpl; try exact H. tauto.
  - tauto.
  - destruct cap; simpl; tauto.
  - unfold handleClose, stopCamera; simpl. destruct str; simpl; tauto.
Qed.

Lemma run_keeps_pair (p : props) (es : list event) (s : session) :
  paired s -> paired (fst (run_events p es s)).
Proof.
  revert s. induction es as [ | e es IH ]; intros s Hs; simpl.
  - exact Hs.
  - pose proof (step_keeps_pair p e s Hs) as H1.
    destruct (step p e s) as [s1 log1]; simpl in *.
    specialize (IH s1 H1).
    now destruct (run_events p es s1) as [s2 log2].
Qed.

(** ** Confirming *)

(** C7. When the upload fails during confirmation, the captured image and
    the coordinate resolved with it stay exactly as they were (only the
    error message is set and the processing flag cleared), and nothing is
    delivered to the caller.  Confirming again uploads the same image and,
    on success, delivers the same coordinate, with no new capture.  The
    pair is dropped by retake and by cancel; while the preview is off, no
    other handler touches it except a confirmation that succeeds. *)
Theorem upload_failure_keeps_capture
    (p : props) (s : session) (img : string) (loc : LatLng)
    (iso : string) (o : upload_outcome) :
  capturedImage s = Some img ->
  nonempty (Some img) = true ->
  location s = Some loc ->
  upload_failed o = true ->
  let s' := fst (confirmCapture p iso o s) in
  let log := snd (confirmCapture p iso o s) in
  s' = setIsProcessing false (setError (Some processing_failed) s)
  /\ capturedImage s' = Some img
  /\ location s' = Some loc
  /\ (forall url l, ~ In (OnSuccess url l) log)
  /\ ~ In OnClose log
  /\ (forall iso' url,
        snd (confirmCapture p iso' (Stored url) s')
        = [StorageUpload (filename p iso') img; OnSuccess url loc; OnClose])
  /\ (forall cam,
        capturedImage (fst (retakePhoto cam s')) = None
        /\ location (fst (retakePhoto cam s')) = None)
  /\ (capturedImage (fst (handleClose s')) = None
      /\ location (fst (handleClose s')) = None)
  /\ (isCapturing s = false ->
      forall e, consumes e = false ->
        capturedImage (fst (step p e s')) = Some img
        /\ location (fst (step p e s')) = Some loc).
Proof.
  intros Himg Htruthy Hloc Hfail.
  destruct s as [cap image proc location err str]; simpl in Himg, Hloc; subst.
  destruct img as [ | ch rest ]; [ discriminate Htruthy | clear Htruthy ].
  unfold confirmCapture; simpl.
  destruct o as [ | | url0 ]; try discriminate Hfail; simpl;
    repeat apply conj; try reflexivity;
    try (intros ? ? [ K | [ K | [] ] ]; discriminate K);
    try (intros ? ? [ K | [] ]; discriminate K);
    try (intros [ K | [ K | [] ] ]; discriminate K);
    try (intros [ K | [] ]; discriminate K);
    try (intros cam; destruct cam, cap; split; reflexivity);
    try (destruct str; reflexivity);
    try (intros Hcap e He; subst cap;
         destruct e as [ [ | ] | g c | iso' [ | | ] | [ | ] | ];
         try discriminate He; split; reflexivity).
Qed.

Lemma upload_failure_keeps_capture_witness :
  let p := mkProps "u1" clock_in in
  let s := mkSession false (Some "data:image/jpeg;base64,AA") false
                     (Some (mkLatLng 40 (-74))) None None in
  upload_failed StorageError = true
  /\ capturedImage (fst (confirmCapture p "2024-01-15T09:00:00.000Z"
                           StorageError s))
     = Some "data:image/jpeg;base64,AA"
  /\ location (fst (confirmCapture p "2024-01-15T09:00:00.000Z"
                      StorageError s))
     = Some (mkLatLng 40 (-74)).
Proof.
  intros p s. split; [ reflexivity | ].
  destruct (upload_failure_keeps_capture p s "data:image/jpeg;base64,AA"
              (mkLatLng 40 (-74)) "2024-01-15T09:00:00.000Z" StorageError
              eq_refl eq_refl eq_refl eq_refl) as (_ & Himg & Hloc & _).
  split; [ exact Himg | exact Hloc ].
Defined.

End CaptureFacts.

Module AttendanceFacts.
Import Geofence Attendance.
Local Open Scope string_scope.
Local Arguments firstn {A} n l : simpl never.

(** ** Reading the table *)

Lemma in_insert_desc (x r : AttendanceRecord) (l : list AttendanceRecord) :
  In x (insert_desc r l) <-> x = r \/ In x l.
Proof.
  induction l as [ | y l IH ]; simpl.
  - intuition congruence.
  - destruct (String.leb (date y) (date r)); simpl.
    + intuition congruence.
    + rewrite IH. intuition congruence.
Qed.

Lemma in_order_date_desc (x : AttendanceRecord) (l : list AttendanceRecord) :
  In x (order_date_desc l) <-> In x l.
Proof.
  induction l as [ | y l IH ]; simpl; [ reflexivity | ].
  rewrite in_insert_desc, IH. intuition congruence.
Qed.

Lemma firstn_incl {A : Type} (n : nat) (l : list A) (x : A) :
  In x (firstn n l) -> In x l.
Proof.
  revert l. induction n as [ | n IH ]; intros [ | y l ]; simpl; try tauto.
  intros [E | H]; [ now left | right; now apply IH ].
Qed.

(** What [loadAttendanceData] shows is in the table and belongs to the
    employee. *)
Lemma loaded_records (u t : string) (a : read_outcome) (w : world)
                     (r : AttendanceRecord) :
  In r (attendanceRecords (ui (loadAttendanceData u t a w))) ->
  In r (attendance w) /\ user_id r = u.
Proof.
  destruct a; simpl; [ | intros [] ].
  intros H. apply firstn_incl in H.
  apply (proj1 (in_order_date_desc _ _)) in H.
  apply (proj1 (filter_In _ _ _)) in H.
  destruct H as [H1 H2]. split; [ exact H1 | now apply String.eqb_eq ].
Qed.

Lemma loaded_today (u t : string) (a : read_outcome) (w : world)
                   (r : AttendanceRecord) :
  todayRecord (ui (loadAttendanceData u t a w)) = Some r ->
  In r (attendance w) /\ user_id r = u /\ date r = date_of t.
Proof.
  intros H. simpl in H. apply find_some in H. destruct H as [H1 H2].
  apply (loaded_records u t a w) in H1. destruct H1 as [H1 H3].
  repeat split; try assumption. now apply String.eqb_eq.
Qed.

(** A view loaded on a day for which the table has no record of the
    employee holds no today's record. *)
Lemma loaded_without_today (u t : string) (a : read_outcome) (w : world) :
  records_of u (date_of t) (attendance w) = [] ->
  todayRecord (ui (loadAttendanceData u t a w)) = None.
Proof.
  intros Hnone.
  destruct (todayRecord (ui (loadAttendanceData u t a w))) as [r | ] eqn:E;
    [ | reflexivity ].
  apply loaded_today in E. destruct E as (Hin & Hu & Hd).
  assert (In r (records_of u (date_of t) (attendance w))) as K.
  { apply filter_In. split; [ exact Hin | ].
    unfold has_key. rewrite Hu, Hd, !String.eqb_refl. reflexivity. }
  rewrite Hnone in K. destruct K.
Qed.

(** ** The coordinate as the client writes it *)

(** The text begins with the letter P, which can begin neither a
    parenthesis nor a number: the store does not read it as a point. *)
Lemma locationPoint_refused (P : platform) (loc : LatLng) :
  point_in P (locationPoint P loc)
  = Error invalid_text_representation.
Proof. reflexivity. Qed.

Lemma upsert_refused (P : platform) (c : option conflict_columns)
    (fresh store_now u d now url : string) (s : attendance_status)
    (loc : LatLng) (t : table) :
  upsert P c fresh store_now
         (mkRequest u d now s url (locationPoint P loc)) t
  = Error invalid_text_representation.
Proof. reflexivity. Qed.

Lemma update_clock_out_refused (P : platform) (i store_now now : string)
                               (loc : LatLng) (t : table) :
  update_clock_out P i store_now now (locationPoint P loc) t
  = Error invalid_text_representation.
Proof. reflexivity. Qed.

(** Hence both operations end in the [catch] block, or, for a clock-out
    without a today's record, at the early [return]. *)
Lemma clockIn_refused
    (P : platform) (u url : string) (loc : LatLng) (t : readings)
    (fresh : string) (w : world) :
  clockIn P u url loc t fresh w
  = (handleClockIn w, ["Error updating attendance:"]).
Proof. reflexivity. Qed.

Lemma clockOut_refused
    (P : platform) (u url : string) (loc : LatLng) (t : readings)
    (fresh : string) (w : world) :
  clockOut P u url loc t fresh w
  = (handleClockOut w,
     match todayRecord (ui w) with
     | None => []
     | Some _ => ["Error updating attendance:"]
     end).
Proof.
  unfold clockOut, handleSelfieSuccess. simpl.
  now destruct (todayRecord (ui w)).
Qed.

Lemma perform_table (P : platform) (u : string) (o : operation) (w : world) :
  attendance (perform P u o w) = attendance w.
Proof.
  destruct o as [url loc t fresh | url loc t fresh | t a]; simpl.
  - reflexivity.
  - now rewrite clockOut_refused.
  - reflexivity.
Qed.

Lemma perform_all_table (P : platform) (u : string) (os : list operation)
                        (w : world) :
  attendance (perform_all P u os w) = attendance w.
Proof.
  unfold perform_all. revert w.
  induction os as [ | o os IH ]; intros w; simpl; [ reflexivity | ].
  now rewrite IH, perform_table.
Qed.

(** ** The store on values of the columns' types *)

Lemma find_has_id_none (i : string) (t : table) :
  (forall r, In r t -> id r <> i) -> find (has_id i) t = None.
Proof.
  intros H. destruct (find (has_id i) t) as [r | ] eqn:E; [ | reflexivity ].
  apply find_some in E. destruct E as [Hin Hid].
  apply String.eqb_eq in Hid. now apply H in Hin.
Qed.

Lemma has_key_true (u d : string) (r : AttendanceRecord) :
  has_key u d r = true <-> user_id r = u /\ date r = d.
Proof.
  unfold has_key. rewrite andb_true_iff, !String.eqb_eq. reflexivity.
Qed.

Lemma has_id_true (i : string) (r : AttendanceRecord) :
  has_id i r = true <-> id r = i.
Proof. unfold has_id. apply String.eqb_eq. Qed.


(** An insert for a day on which the employee already has a record is
    refused by [UNIQUE(user_id, date)] when conflicts are resolved on the
    primary key, which the new row shares with no other. *)
Lemma insert_refused_on_same_day
    (fresh store_now : string) (v : clock_in_values) (t : table)
    (old : AttendanceRecord) :
  In old t -> user_id old = v_user_id v -> date old = v_date v ->
  (forall r, In r t -> id r <> fresh) ->
  insert_on_conflict None fresh store_now v t
  = Error (unique_violation "attendance_user_id_date_key").
Proof.
  intros Hin Hu Hd Hfresh. unfold insert_on_conflict.
  rewrite (find_has_id_none _ _ Hfresh).
  replace (existsb (has_key (v_user_id v) (v_date v)) t) with true;
    [ reflexivity | ].
  symmetry. apply existsb_exists. exists old.
  split; [ exact Hin | now apply has_key_true ].
Qed.

Lemma map_id_merged (i n : string) (v : clock_in_values) (t : table) :
  map id (map (fun r => if has_id i r then merged n v r else r) t)
  = map id t.
Proof.
  rewrite map_map. apply map_ext. intros r. now destruct (has_id i r).
Qed.

Lemma keys_after_merge (i n : string) (v : clock_in_values) (t : table) :
  NoDup (map id t) -> NoDup (map key t) ->
  existsb (fun r => negb (has_id i r)
                    && has_key (v_user_id v) (v_date v) r) t = false ->
  NoDup (map key (map (fun r => if has_id i r then merged n v r else r) t)).
Proof.
  set (g := fun r => if has_id i r then merged n v r else r).
  induction t as [ | x t IH ]; simpl; intros Hid Hkey Hno; [ constructor | ].
  apply NoDup_cons_iff in Hid. destruct Hid as [Hid1 Hid2].
  apply NoDup_cons_iff in Hkey. destruct Hkey as [Hkey1 Hkey2].
  apply orb_false_iff in Hno. destruct Hno as [Hx Hno].
  assert (forall y, In y t -> negb (has_id i y)
                              && has_key (v_user_id v) (v_date v) y = false)
    as Hothers.
  { intros y Hy. apply not_true_is_false. intros E.
    assert (existsb (fun r => negb (has_id i r)
                       && has_key (v_user_id v) (v_date v) r) t = true) as K
      by (apply existsb_exists; now exists y).
    congruence. }
  constructor; [ | now apply IH ].
  intros Hin. apply in_map_iff in Hin. destruct Hin as (y' & Ey & Hy').
  apply in_map_iff in Hy'. destruct Hy' as (y & Eg & Hy). subst y'.
  unfold g in Ey.
  destruct (has_id i x) eqn:Ix, (has_id i y) eqn:Iy.
  - apply has_id_true in Ix, Iy. apply Hid1.
    apply in_map_iff. exists y. split; [ congruence | exact Hy ].
  - specialize (Hothers y Hy). rewrite Iy in Hothers. simpl in Hothers.
    unfold key in Ey. simpl in Ey. injection Ey as E1 E2.
    assert (has_key (v_user_id v) (v_date v) y = true) as K
      by (apply has_key_true; split; assumption).
    congruence.
  - simpl in Hx.
    unfold key in Ey. simpl in Ey. injection Ey as E1 E2.
    assert (has_key (v_user_id v) (v_date v) x = true) as K
      by (apply has_key_true; split; congruence).
    congruence.
  - apply Hkey1. apply in_map_iff. exists y. split; assumption.
Qed.

Lemma NoDup_snoc {A : Type} (l : list A) (a : A) :
  NoDup l -> ~ In a l -> NoDup (l ++ [a]).
Proof.
  induction l as [ | x l IH ]; simpl; intros Hl Ha.
  - constructor; [ tauto | constructor ].
  - apply NoDup_cons_iff in Hl. destruct Hl as [Hx Hl].
    constructor; [ | apply IH; tauto ].
    intros Hin. apply in_app_or in Hin.
    destruct Hin as [Hin | [E | []]]; [ tauto | subst; tauto ].
Qed.

(** Both writes keep the primary key and [UNIQUE(user_id, date)]. *)
Lemma insert_on_conflict_well_formed
    (fresh n : string) (v : clock_in_values) (t t' : table)
    (data : AttendanceRecord) :
  well_formed t ->
  insert_on_conflict None fresh n v t = Data (t', data) ->
  well_formed t'.
Proof.
  intros [Hid Hkey]. unfold insert_on_conflict.
  destruct (find (has_id fresh) t) as [old | ] eqn:F.
  - destruct (existsb _ t) eqn:X; [ discriminate | ].
    intros E. injection E as E _. subst t'. split.
    + now rewrite map_id_merged.
    + now apply keys_after_merge.
  - destruct (existsb _ t) eqn:X; [ discriminate | ].
    intros E. injection E as E _. subst t'. split.
    + rewrite map_app. simpl. apply NoDup_snoc; [ exact Hid | ].
      intros Hin. apply in_map_iff in Hin. destruct Hin as (y & Ey & Hy).
      pose proof (find_none _ _ F y Hy) as K.
      apply has_id_true in Ey. congruence.
    + rewrite map_app. simpl. apply NoDup_snoc; [ exact Hkey | ].
      intros Hin. apply in_map_iff in Hin. destruct Hin as (y & Ey & Hy).
      unfold key in Ey. injection Ey as E1 E2.
      assert (existsb (has_key (v_user_id v) (v_date v)) t = true) as K.
      { apply existsb_exists. exists y. split; [ exact Hy | ].
        now apply has_key_true. }
      congruence.
Qed.

Lemma set_clock_out_well_formed
    (i n now : string) (p : point) (t t' : table) (data : AttendanceRecord) :
  well_formed t ->
  set_clock_out i n now p t = Data (t', data) ->
  well_formed t'.
Proof.
  intros [Hid Hkey]. unfold set_clock_out.
  destruct (find (has_id i) t) as [old | ]; [ | discriminate ].
  intros E. injection E as E _. subst t'. split.
  - rewrite map_map.
    erewrite map_ext; [ exact Hid | ].
    intros r. now destruct (has_id i r).
  - rewrite map_map.
    erewrite map_ext; [ exact Hkey | ].
    intros r. now destruct (has_id i r).
Qed.


(** C3. A clock-out never reaches the table.  When the view holds no
    today's record the handler returns before any request; when it holds
    one, the request carries the coordinate as the text [POINT(lng lat)],
    which the store refuses for the [POINT] column, and the handler logs
    the error.  Either way the table, and with it the records of every
    employee for every day, and today's record in the view are what they
    were: for an employee without a record for the day none is created and
    no clock-out time or coordinate is written. *)
Theorem clock_out_leaves_table_unchanged
    (P : platform) (u url : string) (loc : LatLng) (t : readings)
    (fresh : string) (w : world) :
  let after := clockOut P u url loc t fresh w in
  attendance (fst after) = attendance w
  /\ (forall e d,
        records_of e d (attendance (fst after))
        = records_of e d (attendance w))
  /\ (records_of u (date_of (at_today t)) (attendance w) = [] ->
      records_of u (date_of (at_today t)) (attendance (fst after)) = [])
  /\ (forall r, In r (attendance (fst after)) ->
                In r (attendance w))
  /\ todayRecord (ui (fst after)) = todayRecord (ui w)
  /\ attendanceRecords (ui (fst after)) = attendanceRecords (ui w)
  /\ (todayRecord (ui w) = None -> snd after = [])
  /\ (forall rec,
        todayRecord (ui w) = Some rec ->
        update_clock_out P (id rec) (at_store t) (at_now t)
                         (locationPoint P loc) (attendance w)
        = Error invalid_text_representation
        /\ snd after = ["Error updating attendance:"]).
Proof.
  intros after. unfold after. rewrite clockOut_refused. simpl.
  repeat apply conj; try reflexivity.
  - intros H. exact H.
  - intros r H. exact H.
  - intros H. now rewrite H.
  - intros rec H. rewrite H. split; reflexivity.
Qed.

(** C5, evaluated where it fails.  The table holds a record of the
    employee for the day.  A second clock-in, with a new selfie and
    coordinate, is refused: the store does not read the text sent for
    [clock_in_location] as a point and, had it read the coordinate, would
    have answered with a violation of [UNIQUE(user_id, date)].  The handler
    logs the error and the record keeps its first clock-in time, selfie and
    coordinate. *)
Theorem second_clock_in_hits_unique_constraint (P : platform) :
  attendance second_tab = [first_record]
  /\ todayRecord (ui second_tab) = None
  /\ insert_on_conflict None "id-2" "2024-01-15T17:00:00.100Z"
            (mkValues "u1" "2024-01-15" "2024-01-15T17:00:00.001Z" present
                      "https://x/img2.jpg" (mkPoint (-75) 41))
            (attendance second_tab)
     = Error (unique_violation "attendance_user_id_date_key")
  /\ upsert P None "id-2" "2024-01-15T17:00:00.100Z"
            (mkRequest "u1" "2024-01-15" "2024-01-15T17:00:00.001Z" present
                       "https://x/img2.jpg"
                       (locationPoint P (mkLatLng 41 (-75))))
            (attendance second_tab)
     = Error invalid_text_representation
  /\ clockIn P "u1" "https://x/img2.jpg" (mkLatLng 41 (-75)) evening "id-2"
             second_tab
     = (handleClockIn second_tab, ["Error updating attendance:"])
  /\ attendance
       (fst (clockIn P "u1" "https://x/img2.jpg" (mkLatLng 41 (-75)) evening
                     "id-2" second_tab))
     = [first_record].
Proof. repeat split. Qed.

(** Had the store read the coordinate and had the request named
    [user_id, date] as its conflict target, the same second clock-in would
    have overwritten the record in place. *)
Example keyed_upsert_overwrites :
  insert_on_conflict (Some on_user_id_date) "id-2" "2024-01-15T17:00:00.100Z"
         (mkValues "u1" "2024-01-15" "2024-01-15T17:00:00.001Z" present
                   "https://x/img2.jpg" (mkPoint (-75) 41))
         [first_record]
  = Data ([mkRecord "id-1" "u1" "2024-01-15"
                    (Some "2024-01-15T17:00:00.001Z") None None None present
                    (Some "https://x/img2.jpg") (Some (mkPoint (-75) 41))
                    None None None (Some "2024-01-15T09:00:00.100Z")
                    (Some "2024-01-15T17:00:00.100Z")],
          mkRecord "id-1" "u1" "2024-01-15"
                   (Some "2024-01-15T17:00:00.001Z") None None None present
                   (Some "https://x/img2.jpg") (Some (mkPoint (-75) 41))
                   None None None (Some "2024-01-15T09:00:00.100Z")
                   (Some "2024-01-15T17:00:00.100Z")).
Proof. reflexivity. Qed.

(** C8, evaluated where it fails.  The employee opens the page on an empty
    table, clocks in and clocks out.  The clock-in request carries
    [status: present] and the coordinate as the text [POINT(lng lat)]; the
    store does not read that text as a point and refuses the request, the
    handler logs the error, and no record is created.  The clock-out then
    finds no today's record and returns.  The table is as empty as before:
    there is no record with both timestamps.  The same holds from every
    table and view: a clock-in leaves the table as it was. *)
Theorem clock_in_then_clock_out_leaves_no_record (P : platform) :
  let first := clockIn P "u1" "https://x/img.jpg" here morning "id-1"
                       page_opened in
  let second := clockOut P "u1" "https://x/out.jpg" here evening "id-2"
                         (fst first) in
  attendance page_opened = []
  /\ locationPoint P here
     = "POINT(" ++ Number_toString P (-74) ++ " "
                ++ Number_toString P 40 ++ ")"
  /\ point_in P (locationPoint P here)
     = Error invalid_text_representation
  /\ upsert P None "id-1" "2024-01-15T09:00:00.100Z"
            (mkRequest "u1" "2024-01-15" "2024-01-15T09:00:00.001Z" present
                       "https://x/img.jpg" (locationPoint P here))
            []
     = Error invalid_text_representation
  /\ first = (handleClockIn page_opened, ["Error updating attendance:"])
  /\ todayRecord (ui (fst first)) = None
  /\ second = (handleClockOut (fst first), [])
  /\ attendance (fst second) = []
  /\ records_of "u1" "2024-01-15" (attendance (fst second)) = []
  /\ (forall u url loc t fresh w,
        attendance (fst (clockIn P u url loc t fresh w)) = attendance w).
Proof. repeat split. Qed.

End AttendanceFacts.

(* ================================================================== *)
(** * Further properties of the geofence validator *)
(* ================================================================== *)

Module GeofenceMore.
Import Geofence GeofenceFacts.
Local Open Scope R_scope.

(** X7. After any history of updates that ends with a present location,
    the badge drawn is the verdict last handed to the callback and the
    distance shown is the one just computed.  On the first draw with a
    present location, before the effect has run, the unknown verdict is
    drawn as "Outside work area" and no distance is shown. *)
Theorem badge_agrees_with_callback
    (h : history) (u : LatLng) (w : WorkLocation) (st : state) :
  let now := run (h ++ [(Some u, w)]) st in
  in_force (snd now) = Some (verdict w u)
  /\ render (Some u) w (fst now)
     = LocationVerification
         (if verdict w u then WithinWorkArea else OutsideWorkArea)
         (Some (calculateDistance (lat u) (lng u) (wlat w) (wlng w)))
         (radius w)
  /\ render (Some u) w initial
     = LocationVerification OutsideWorkArea None (radius w).
Proof.
  intros now. unfold now. rewrite run_app. simpl.
  repeat apply conj.
  - apply in_force_last.
  - unfold render, verdict. simpl. now destruct (Rleb _ _).
  - reflexivity.
Qed.

End GeofenceMore.

(* ================================================================== *)
(** * Further properties of the capture dialog *)
(* ================================================================== *)

Module CaptureMore.
Import Geofence Capture CaptureFacts.
Local Open Scope string_scope.

(** X8. Closing the dialog from any state clears the session (only the
    processing flag is left as it was), stops each track of the stream held
    in [streamRef] as often as it occurs there and no other track, and
    closing once more stops nothing and changes nothing. *)
Theorem close_stops_held_tracks (s : session) :
  fst (handleClose s) = mkSession false None (isProcessing s) None None None
  /\ idle (fst (handleClose s)) = true
  /\ (forall t,
        stops_of t (snd (handleClose s))
        = match streamRef s with
          | Some stream => count_occ Nat.eq_dec (getTracks stream) t
          | None => 0
          end)
  /\ handleClose (fst (handleClose s)) = (fst (handleClose s), [OnClose]).
Proof.
  destruct s as [cap img proc loc err [stream | ]];
    unfold handleClose, stopCamera; simpl; repeat apply conj;
    try reflexivity.
  intros t. rewrite stops_of_app, stops_of_tracks. simpl. lia.
Qed.

Lemma quiet_app (l1 l2 : list effect) :
  quiet (l1 ++ l2) = quiet l1 && quiet l2.
Proof. unfold quiet. apply forallb_app. Qed.

Lemma quiet_stops (ts : list track) : quiet (map TrackStop ts) = true.
Proof. induction ts; simpl; auto. Qed.

Lemma frames_app (l1 l2 : list effect) :
  existsb is_frame (l1 ++ l2) = existsb is_frame l1 || existsb is_frame l2.
Proof. apply existsb_app. Qed.

Lemma frames_stops (ts : list track) :
  existsb is_frame (map TrackStop ts) = false.
Proof. induction ts; simpl; auto. Qed.

Lemma step_without_preview (p : props) (e : event) (s : session) :
  isCapturing s = false ->
  isCapturing (fst (step p e s)) = false
  /\ existsb is_frame (snd (step p e s)) = false
  /\ (streamRef (fst (step p e s)) = streamRef s
      \/ streamRef (fst (step p e s)) = None)
  /\ (capturedImage s = None ->
      capturedImage (fst (step p e s)) = None
      /\ quiet (snd (step p e s)) = true).
Proof.
  destruct s as [cap img proc loc err str]; simpl. intros Hc. subst cap.
  destruct e as [ [ | stream ] | g c | iso o | [ | stream ] | ]; simpl;
    try (repeat apply conj; auto; fail).
  - unfold confirmCapture; simpl.
    destruct img as [ [ | ch rest ] | ], loc as [l | ];
      try (repeat apply conj; auto; discriminate).
    destruct o; simpl; repeat apply conj; auto; discriminate.
  - unfold handleClose, stopCamera; simpl.
    destruct str as [stream | ]; simpl; repeat apply conj; auto.
    + rewrite frames_app, frames_stops. reflexivity.
    + intros _. split; [ reflexivity | ].
      rewrite quiet_app, quiet_stops. reflexivity.
Qed.

(** X9. Once the preview is off it stays off: whatever the user and the
    devices do next, [isCapturing] remains false, no frame is rasterized,
    and no stream that the camera hands out is kept in [streamRef].  If in
    addition no image is held, none is ever held again, nothing is uploaded
    and [onSuccess] is never called.  This is the state the component is
    mounted in. *)
Theorem preview_never_starts (p : props) (es : list event) (s : session) :
  isCapturing s = false ->
  isCapturing (fst (run_events p es s)) = false
  /\ existsb is_frame (snd (run_events p es s)) = false
  /\ (streamRef (fst (run_events p es s)) = streamRef s
      \/ streamRef (fst (run_events p es s)) = None)
  /\ (capturedImage s = None ->
      capturedImage (fst (run_events p es s)) = None
      /\ quiet (snd (run_events p es s)) = true).
Proof.
  revert s. induction es as [ | e es IH ]; intros s Hc; simpl.
  - repeat apply conj; auto.
  - destruct (step_without_preview p e s Hc) as (H1 & H2 & H3 & H4).
    destruct (step p e s) as [s1 log1]; simpl in *.
    destruct (IH s1 H1) as (K1 & K2 & K3 & K4).
    destruct (run_events p es s1) as [s2 log2]; simpl in *.
    repeat apply conj.
    + exact K1.
    + rewrite frames_app, H2, K2. reflexivity.
    + destruct K3 as [K3 | K3]; [ rewrite K3; exact H3 | now right ].
    + intros Hi. destruct (H4 Hi) as [H5 H6].
      destruct (K4 H5) as [K5 K6].
      split; [ exact K5 | ]. rewrite quiet_app, H6, K6. reflexivity.
Qed.

Lemma preview_never_starts_witness :
  isCapturing closed_session = false
  /\ isCapturing
       (fst (run_events (mkProps "u1" clock_in)
               [StartCamera (CameraGranted (mkStream [1]));
                CapturePhoto (GeoPosition 40 (-74)) (Frame "data:,");
                ConfirmCapture "2024-01-15T09:00:00.000Z" (Stored "u")]
               closed_session)) = false.
Proof.
  split; [ reflexivity | ].
  exact (proj1 (preview_never_starts (mkProps "u1" clock_in)
    [StartCamera (CameraGranted (mkStream [1]));
     CapturePhoto (GeoPosition 40 (-74)) (Frame "data:,");
     ConfirmCapture "2024-01-15T09:00:00.000Z" (Stored "u")]
    closed_session eq_refl)).
Defined.

(** X10. No sequence of handlers leaves an image without a coordinate: if
    the session holds a coordinate whenever it holds an image, it still
    does after any events. *)
Theorem image_never_without_coordinate
    (p : props) (es : list event) (s : session) :
  paired s -> paired (fst (run_events p es s)).
Proof.
  revert s. induction es as [ | e es IH ]; intros s Hs; simpl.
  - exact Hs.
  - pose proof (step_keeps_pair p e s Hs) as H1.
    destruct (step p e s) as [s1 log1]; simpl in *.
    specialize (IH s1 H1).
    now destruct (run_events p es s1) as [s2 log2].
Qed.

Lemma image_never_without_coordinate_witness :
  paired (mkSession true None false None None (Some (mkStream [1])))
  /\ paired
       (fst (run_events (mkProps "u1" clock_in)
               [CapturePhoto (GeoPosition 40 (-74)) (Frame "data:,");
                ConfirmCapture "2024-01-15T09:00:00.000Z" StorageError]
               (mkSession true None false None None
                          (Some (mkStream [1]))))).
Proof.
  assert (paired (mkSession true None false None None
                            (Some (mkStream [1])))) as H
    by (intros K; exfalso; apply K; reflexivity).
  split; [ exact H | ].
  exact (image_never_without_coordinate (mkProps "u1" clock_in)
    [CapturePhoto (GeoPosition 40 (-74)) (Frame "data:,");
     ConfirmCapture "2024-01-15T09:00:00.000Z" StorageError]
    (mkSession true None false None None (Some (mkStream [1]))) H).
Defined.

(** X11. A confirmation whose upload succeeds uploads the held image once
    under the file name of the moment, hands the URL and the held
    coordinate to [onSuccess] once, closes the dialog and drops image and
    coordinate, so that confirming again does nothing.  It does not clear
    the error message: after a failed and then a successful confirmation
    the message of the failure is still set. *)
Theorem confirm_delivers_once
    (p : props) (s : session) (img : string) (loc : LatLng)
    (iso url : string) :
  capturedImage s = Some img ->
  nonempty (Some img) = true ->
  location s = Some loc ->
  let s' := fst (confirmCapture p iso (Stored url) s) in
  confirmCapture p iso (Stored url) s
  = (mkSession (isCapturing s) None false None (error s) (streamRef s),
     [StorageUpload (filename p iso) img; OnSuccess url loc; OnClose])
  /\ (forall iso' o', confirmCapture p iso' o' s' = (s', []))
  /\ (forall iso0 o0,
        upload_failed o0 = true ->
        error (fst (run_events p [ConfirmCapture iso0 o0;
                                  ConfirmCapture iso (Stored url)] s))
        = Some processing_failed).
Proof.
  intros Himg Hne Hloc.
  destruct s as [cap image proc location err str]; simpl in Himg, Hloc; subst.
  destruct img as [ | ch rest ]; [ discriminate Hne | clear Hne ].
  repeat apply conj.
  - reflexivity.
  - reflexivity.
  - intros iso0 o0 Hf. destruct o0; try discriminate Hf; reflexivity.
Qed.

Lemma confirm_delivers_once_witness :
  let p := mkProps "u1" clock_in in
  let s := mkSession false (Some "data:image/jpeg;base64,AA") false
                     (Some (mkLatLng 40 (-74))) None None in
  nonempty (Some "data:image/jpeg;base64,AA") = true
  /\ snd (confirmCapture p "2024-01-15T09:00:00.000Z" (Stored "https://x/u")
            s)
     = [StorageUpload "selfies/u1/clock_in_2024-01-15T09-00-00-000Z.jpg"
                      "data:image/jpeg;base64,AA";
        OnSuccess "https://x/u" (mkLatLng 40 (-74)); OnClose].
Proof.
  intros p s. split; [ reflexivity | ].
  exact (f_equal snd
    (proj1 (confirm_delivers_once p s "data:image/jpeg;base64,AA"
              (mkLatLng 40 (-74)) "2024-01-15T09:00:00.000Z" "https://x/u"
              eq_refl eq_refl eq_refl))).
Defined.

(** ** The storage key *)

Lemma append_cancel_l (a b c : string) : a ++ b = a ++ c -> b = c.
Proof.
  induction a as [ | ch a IH ]; simpl; intros H; [ exact H | ].
  injection H as H. now apply IH.
Qed.

Lemma length_append (a b : string) :
  String.length (a ++ b) = String.length a + String.length b.
Proof.
  induction a as [ | ch a IH ]; simpl; [ reflexivity | now rewrite IH ].
Qed.

Lemma append_cancel_r (a b c : string) : a ++ c = b ++ c -> a = b.
Proof.
  revert b. induction a as [ | ch a IH ]; intros [ | ch' b ]; simpl; intros H.
  - reflexivity.
  - apply (f_equal String.length) in H. simpl in H.
    rewrite length_append in H. lia.
  - apply (f_equal String.length) in H. simpl in H.
    rewrite length_append in H. lia.
  - injection H as E H. subst ch'. f_equal. now apply IH.
Qed.

(** X12. Replacing the separators of a timestamp keeps its length, turns
    each colon and each dot into a dash and leaves every other character in
    place, so the result contains neither colon nor dot; doing it twice is
    doing it once. *)
Theorem dashes_removes_separators (s : string) :
  String.length (dashes s) = String.length s
  /\ (forall n c, String.get n (dashes s) = Some c ->
                  c <> ":"%char /\ c <> "."%char)
  /\ (forall n c, String.get n s = Some c ->
                  String.get n (dashes s)
                  = Some (if separator c then "-"%char else c))
  /\ dashes (dashes s) = dashes s.
Proof.
  repeat apply conj.
  - induction s as [ | ch s IH ]; simpl; [ reflexivity | now rewrite IH ].
  - induction s as [ | ch s IH ]; simpl; intros n c H; [ discriminate | ].
    destruct n as [ | n ].
    + injection H as H. subst c.
      destruct (Ascii.eqb_spec ch ":"); simpl.
      * split; discriminate.
      * destruct (Ascii.eqb_spec ch "."); simpl; [ split; discriminate | ].
        split; assumption.
    + now apply (IH n c).
  - induction s as [ | ch s IH ]; simpl; intros n c H; [ discriminate | ].
    destruct n as [ | n ].
    + injection H as H. subst c. reflexivity.
    + now apply IH.
  - induction s as [ | ch s IH ]; simpl; [ reflexivity | ].
    rewrite IH. f_equal.
    destruct (Ascii.eqb_spec ch ":"); simpl; [ reflexivity | ].
    destruct (Ascii.eqb_spec ch "."); simpl; [ reflexivity | ].
    destruct (Ascii.eqb_spec ch ":"); [ contradiction | ].
    destruct (Ascii.eqb_spec ch "."); [ contradiction | reflexivity ].
Qed.

(** X13. For one user, two storage keys coincide exactly when the action
    is the same and the two timestamps agree after their separators are
    replaced; a clock-in selfie and a clock-out selfie never share a
    key. *)
Theorem filename_collisions (u iso1 iso2 : string) (a1 a2 : capture_action) :
  filename (mkProps u a1) iso1 = filename (mkProps u a2) iso2
  <-> a1 = a2 /\ dashes iso1 = dashes iso2.
Proof.
  unfold filename. simpl. split.
  - intros H.
    apply (append_cancel_l "selfies/") in H.
    apply append_cancel_l in H.
    apply (append_cancel_l "/") in H.
    destruct a1, a2; simpl in H.
    + split; [ reflexivity | ].
      apply (append_cancel_l "clock_in") in H.
      apply (append_cancel_l "_") in H.
      now apply append_cancel_r in H.
    + discriminate H.
    + discriminate H.
    + split; [ reflexivity | ].
      apply (append_cancel_l "clock_out") in H.
      apply (append_cancel_l "_") in H.
      now apply append_cancel_r in H.
  - intros [E1 E2]. now rewrite E1, E2.
Qed.

End CaptureMore.

(* ================================================================== *)
(** * Further properties of the attendance recorder *)
(* ================================================================== *)

Module AttendanceMore.
Import Geofence Attendance AttendanceFacts.
Local Open Scope string_scope.
Local Arguments firstn {A} n l : simpl never.

Lemma insert_desc_sorted (r : AttendanceRecord) (l : list AttendanceRecord) :
  Sorted newer_or_same l -> Sorted newer_or_same (insert_desc r l).
Proof.
  induction l as [ | x l IH ]; simpl; intros H.
  - repeat constructor.
  - destruct (String.leb (date x) (date r)) eqn:E.
    + constructor; [ exact H | constructor; exact E ].
    + apply Sorted_inv in H. destruct H as [Hl Hx].
      constructor; [ now apply IH | ].
      assert (newer_or_same x r) as Hxr.
      { unfold newer_or_same.
        destruct (String.leb_total (date x) (date r)) as [K | K];
          congruence. }
      destruct l as [ | y l ]; simpl.
      * constructor. exact Hxr.
      * destruct (String.leb (date y) (date r)).
        -- constructor. exact Hxr.
        -- constructor. now apply HdRel_inv in Hx.
Qed.

Lemma order_date_desc_sorted (l : list AttendanceRecord) :
  Sorted newer_or_same (order_date_desc l).
Proof.
  induction l as [ | x l IH ]; simpl; [ constructor | ].
  now apply insert_desc_sorted.
Qed.

Lemma firstn_sorted (n : nat) (l : list AttendanceRecord) :
  Sorted newer_or_same l -> Sorted newer_or_same (firstn n l).
Proof.
  revert l. induction n as [ | n IH ]; intros l H;
    [ rewrite firstn_O; constructor | ].
  destruct l as [ | x l ]; [ rewrite firstn_nil; constructor | ].
  rewrite firstn_cons. apply Sorted_inv in H. destruct H as [Hl Hx].
  constructor; [ now apply IH | ].
  destruct l as [ | y l ]; [ rewrite firstn_nil; constructor | ].
  destruct n; [ rewrite firstn_O; constructor | ].
  rewrite firstn_cons. constructor. now apply HdRel_inv in Hx.
Qed.

Lemma insert_desc_perm (r : AttendanceRecord) (l : list AttendanceRecord) :
  Permutation (insert_desc r l) (r :: l).
Proof.
  induction l as [ | x l IH ]; simpl; [ reflexivity | ].
  destruct (String.leb (date x) (date r)); [ reflexivity | ].
  rewrite IH. apply perm_swap.
Qed.

Lemma order_date_desc_perm (l : list AttendanceRecord) :
  Permutation (order_date_desc l) l.
Proof.
  induction l as [ | x l IH ]; simpl; [ reflexivity | ].
  rewrite insert_desc_perm. now constructor.
Qed.

(** X14. Loading leaves the table alone, whether or not the query is
    answered.  It shows at most 30 records, all of them records of the
    employee that are in the table, newest first.  Today's record, when one
    is found, is among the records shown and is dated today; when none is
    found, no record shown is dated today.  When the query is answered and
    the employee has at most 30 records, exactly those are shown.  When the
    query fails, no record is shown and no today's record is held, whatever
    the table contains. *)
Theorem load_shows_newest_first
    (u t : string) (a : read_outcome) (w : world) :
  let w' := loadAttendanceData u t a w in
  let shown := attendanceRecords (ui w') in
  let own := filter (fun r => user_id r =? u) (attendance w) in
  attendance w' = attendance w
  /\ List.length shown <= 30
  /\ (forall r, In r shown -> In r (attendance w) /\ user_id r = u)
  /\ Sorted newer_or_same shown
  /\ (a = ReadAnswered -> List.length own <= 30 -> Permutation shown own)
  /\ (forall r, todayRecord (ui w') = Some r ->
                In r shown /\ date r = date_of t)
  /\ (todayRecord (ui w') = None ->
      forall r, In r shown -> date r <> date_of t)
  /\ (a = ReadFailed -> shown = [] /\ todayRecord (ui w') = None)
  /\ loading (ui w') = false.
Proof.
  intros w' shown own. repeat apply conj.
  - reflexivity.
  - unfold shown. destruct a; simpl; [ apply firstn_le_length | lia ].
  - intros r H. now apply (loaded_records u t a w).
  - unfold shown. destruct a; simpl; [ | constructor ].
    apply firstn_sorted, order_date_desc_sorted.
  - intros Ea H. subst a. unfold shown. simpl. rewrite firstn_all2.
    + apply order_date_desc_perm.
    + rewrite (Permutation_length (order_date_desc_perm _)). exact H.
  - intros r H. unfold w' in H. simpl in H. apply find_some in H.
    destruct H as [H1 H2]. split; [ exact H1 | now apply String.eqb_eq ].
  - intros H r Hr E. unfold w' in H. simpl in H.
    pose proof (find_none _ _ H r Hr) as K. simpl in K.
    rewrite E, String.eqb_refl in K. discriminate.
  - intros Ea. subst a. split; reflexivity.
  - reflexivity.
Qed.

(** X15. Right after the data was loaded on a day for which the table has
    no record of the employee, the view offers "Clock In", and a clock-out
    delivered nonetheless is dropped without an error: the table and the
    view are unchanged. *)
Theorem clock_out_without_record_rejected
    (P : platform) (u url t0 : string) (a : read_outcome) (loc : LatLng)
    (t : readings) (fresh : string) (w : world) :
  records_of u (date_of t0) (attendance w) = [] ->
  offered (ui (loadAttendanceData u t0 a w)) = OfferClockIn
  /\ clockOut P u url loc t fresh (loadAttendanceData u t0 a w)
     = (handleClockOut (loadAttendanceData u t0 a w), [])
  /\ attendance
       (fst (clockOut P u url loc t fresh (loadAttendanceData u t0 a w)))
     = attendance w.
Proof.
  intros H. pose proof (loaded_without_today u t0 a w H) as K.
  repeat apply conj.
  - unfold offered. now rewrite K.
  - rewrite clockOut_refused. now rewrite K.
  - rewrite clockOut_refused. reflexivity.
Qed.

Lemma clock_out_without_record_rejected_witness :
  records_of "u1" (date_of "2024-01-15T08:59:00.000Z")
             (attendance (mkWorld [] mounted)) = []
  /\ attendance
       (fst (clockOut lenient_platform "u1" "https://x/out.jpg" here morning
               "id-1"
               (loadAttendanceData "u1" "2024-01-15T08:59:00.000Z"
                  ReadAnswered (mkWorld [] mounted))))
     = [].
Proof.
  split; [ reflexivity | ].
  exact (proj2 (proj2
    (clock_out_without_record_rejected lenient_platform "u1"
       "https://x/out.jpg" "2024-01-15T08:59:00.000Z" ReadAnswered here
       morning "id-1" (mkWorld [] mounted) eq_refl))).
Defined.

(** X16. Every clock-in is refused.  The request carries the coordinate as
    the text [POINT(lng lat)]; the store does not read that text as a value
    of the [POINT] column and answers with an invalid text representation,
    whatever the table holds and whichever columns decide a conflict.  The
    handler logs "Error updating attendance:", does not reload, and changes
    neither the table nor the records and today's record in the view. *)
Theorem clock_in_always_refused
    (P : platform) (u url : string) (loc : LatLng) (t : readings)
    (fresh : string) (w : world) :
  (forall c,
     upsert P c fresh (at_store t)
            (mkRequest u (date_of (at_today t)) (at_now t) present url
                       (locationPoint P loc))
            (attendance w)
     = Error invalid_text_representation)
  /\ clockIn P u url loc t fresh w
     = (handleClockIn w, ["Error updating attendance:"])
  /\ attendance (fst (clockIn P u url loc t fresh w)) = attendance w
  /\ todayRecord (ui (fst (clockIn P u url loc t fresh w)))
     = todayRecord (ui w)
  /\ attendanceRecords (ui (fst (clockIn P u url loc t fresh w)))
     = attendanceRecords (ui w).
Proof. repeat split. Qed.



(** X18. With a view that has just been loaded, a table in which
    identifiers are unique and an identifier for the new row that is not in
    use, neither a clock-in nor a clock-out adds, removes or changes a
    record of another employee. *)
Theorem other_employees_untouched
    (P : platform) (u url t0 : string) (a : read_outcome) (loc : LatLng)
    (t : readings) (fresh : string) (w0 : world) (other : AttendanceRecord) :
  well_formed (attendance w0) ->
  (forall r, In r (attendance w0) -> id r <> fresh) ->
  user_id other <> u ->
  let w := loadAttendanceData u t0 a w0 in
  (In other (attendance (fst (clockIn P u url loc t fresh w)))
   <-> In other (attendance w0))
  /\ (In other (attendance (fst (clockOut P u url loc t fresh w)))
      <-> In other (attendance w0)).
Proof.
  intros _ _ _ w. rewrite clockOut_refused. split; reflexivity.
Qed.

Lemma other_employees_untouched_witness :
  let colleague :=
    mkRecord "id-9" "u2" "2024-01-15" (Some "2024-01-15T08:00:00.000Z") None
             None None present (Some "https://x/u2.jpg") None None None None
             (Some "2024-01-15T08:00:00.100Z")
             (Some "2024-01-15T08:00:00.100Z") in
  well_formed [colleague]
  /\ (In colleague
         (attendance
            (fst (clockIn lenient_platform "u1" "https://x/img.jpg" here
                    morning "id-1"
                    (loadAttendanceData "u1" "2024-01-15T08:59:00.000Z"
                       ReadAnswered (mkWorld [colleague] mounted))))) <->
      In colleague [colleague]).
Proof.
  intros colleague.
  assert (well_formed [colleague]) as H.
  { split; (constructor; [ intros [] | constructor ]). }
  assert (forall r, In r [colleague] -> id r <> "id-1") as Hfresh.
  { intros r [E | []]. subst r. discriminate. }
  assert (user_id colleague <> "u1") as Hother by discriminate.
  split; [ exact H | ].
  exact (proj1
    (other_employees_untouched lenient_platform "u1" "https://x/img.jpg"
       "2024-01-15T08:59:00.000Z" ReadAnswered here morning "id-1"
       (mkWorld [colleague] mounted) colleague H Hfresh Hother)).
Defined.

(** X19. The day never advances through the view.  No sequence of
    clock-ins, clock-outs and reloads changes the table, and a view reloaded
    after any such sequence, on a day for which the table had no record of
    the employee, still offers "Clock In": it reaches neither "Clock Out"
    nor "Day Complete". *)
Theorem day_never_advances
    (P : platform) (u : string) (os : list operation) (w : world) :
  attendance (perform_all P u os w) = attendance w
  /\ (forall t a,
        records_of u (date_of t) (attendance w) = [] ->
        offered (ui (loadAttendanceData u t a (perform_all P u os w)))
        = OfferClockIn)
  /\ (forall t a,
        offered (ui (loadAttendanceData u t a (perform_all P u os w)))
        = offered (ui (loadAttendanceData u t a w))).
Proof.
  pose proof (perform_all_table P u os w) as E.
  repeat apply conj.
  - exact E.
  - intros t a H. unfold offered.
    rewrite loaded_without_today; [ reflexivity | now rewrite E ].
  - intros t a. unfold offered. simpl. now rewrite E.
Qed.

End AttendanceMore.
